(** * FlowKit: the flow executor, the trace recorder and the secret resolver

    A shallow embedding of the parts of FlowKit that drive a flow:

    - [controlunit/fcb/node.py], [flow.py], [flow_control_block.py] and
      [controlunit/fcb_queue.py] of the Flow Executor (module [Executor]);
    - [FlowTraceMonitor/main.py], the trace recorder (module [TraceMonitor]);
    - [NodeRunner/node_runner/task_manager/node.py], the secret resolver
      (module [Secrets]).

    Python objects are records, dictionaries are [gmap]s, exceptions are
    values of [Exn] threaded through a small error-and-state monad.  Remote
    parties (the Node Runner, the trace service, the Secret Manager, the
    uuid generator) are inputs of the functions that call them. *)

From Stdlib Require Import ZArith String Ascii List Lia.
From stdpp Require Import base gmap strings pretty list fin_maps.

Local Open Scope string_scope.
Local Open Scope Z_scope.

(** ** Values shared by the three services *)

(** [uuid.UUID], carried in its [str()] form. *)
Abbreviation UUID := string (only parsing).

(** A JSON scalar, as allowed in node outputs
    ([Dict[str, Union[str, int, float]]] in the runner's [NodeResult]). *)
Inductive Scalar :=
| VInt (z : Z)
| VStr (s : string).

(** [Dict[str, Any]] of node inputs and outputs. *)
Abbreviation PyDict := (gmap string Scalar) (only parsing).

(** Python exceptions that the modelled code raises or catches. *)
Inductive Exn :=
| ValueError (msg : string)
| ValidationError (missing_field : string)
| AttributeError (msg : string).

(** The outcome of a Python call: a value or a raised exception. *)
Inductive Res (A : Type) :=
| Ok (a : A)
| Raise (e : Exn).
Arguments Ok {A} a.
Arguments Raise {A} e.

Definition res_bind {A B} (r : Res A) (k : A -> Res B) : Res B :=
  match r with
  | Ok a => k a
  | Raise e => Raise e
  end.

Notation "'try!' x <- r ; k" := (res_bind r (fun x => k))
  (at level 10, x binder, r at level 100, k at level 200).

Module Executor.

(** ** controlunit/fcb/node.py *)

Record NodeOutputs := mkNodeOutputs {
  nodes_of : list string;
  outputs_of : PyDict;
  out_status : string;
  out_message : string
}.

(** The field [code] is [code_of] here, [status] is [ned_status]. *)
Record NodeExecutionData := mkNodeExecutionData {
  node_name : string;
  runner_id : UUID;
  code_of : string;
  ned_status : string;
  ned_inputs : PyDict;
  ned_logs : list string;
  ned_outputs : NodeOutputs
}.

(** A keyword argument of the [NodeExecutionData(...)] constructor call. *)
Inductive KwVal :=
| KwStr (s : string)
| KwUUID (u : UUID)
| KwDict (d : PyDict)
| KwStrList (l : list string)
| KwOutputs (o : NodeOutputs).

Fixpoint kw_get (k : string) (kw : list (string * KwVal)) : option KwVal :=
  match kw with
  | [] => None
  | (k', v) :: kw' => if String.eqb k k' then Some v else kw_get k kw'
  end.

Definition kw_str (k : string) (kw : list (string * KwVal)) : Res string :=
  match kw_get k kw with
  | Some (KwStr s) => Ok s
  | _ => Raise (ValidationError k)
  end.

Definition kw_uuid (k : string) (kw : list (string * KwVal)) : Res UUID :=
  match kw_get k kw with
  | Some (KwUUID u) => Ok u
  | _ => Raise (ValidationError k)
  end.

Definition kw_dict (k : string) (kw : list (string * KwVal)) : Res PyDict :=
  match kw_get k kw with
  | Some (KwDict d) => Ok d
  | _ => Raise (ValidationError k)
  end.

Definition kw_strlist (k : string) (kw : list (string * KwVal)) : Res (list string) :=
  match kw_get k kw with
  | Some (KwStrList l) => Ok l
  | _ => Raise (ValidationError k)
  end.

Definition kw_outputs (k : string) (kw : list (string * KwVal)) : Res NodeOutputs :=
  match kw_get k kw with
  | Some (KwOutputs o) => Ok o
  | _ => Raise (ValidationError k)
  end.

(** [NodeExecutionData(...)] called with keywords only, that is pydantic's
    [BaseModel.__init__]: the seven declared fields are all required, a
    keyword that names no field is ignored, and a missing field raises
    [ValidationError]. *)
Definition NodeExecutionData_init (kw : list (string * KwVal)) : Res NodeExecutionData :=
  try! n <- kw_str "node_name" kw;
  try! r <- kw_uuid "runner_id" kw;
  try! c <- kw_str "code" kw;
  try! s <- kw_str "status" kw;
  try! i <- kw_dict "inputs" kw;
  try! l <- kw_strlist "logs" kw;
  try! o <- kw_outputs "outputs" kw;
  Ok (mkNodeExecutionData n r c s i l o).

Record Node := mkNode {
  name : string;
  code : string;
  flow_lvl : Z
}.

Definition get_code (self : Node) : string := code self.
Definition get_flow_lvl (self : Node) : Z := flow_lvl self.

(** [Node.to_dict()]: the dictionary with keys [name], [code], [flow_lvl]. *)
Record NodeDict := mkNodeDict {
  d_name : string;
  d_code : string;
  d_flow_lvl : Z
}.

Definition Node_to_dict (self : Node) : NodeDict :=
  mkNodeDict (name self) (code self) (flow_lvl self).

(** The [outputs] object of the runner's JSON reply; every key may be absent. *)
Record OutputsJson := mkOutputsJson {
  j_nodes : option (list string);
  j_outputs : option PyDict;
  j_status : option string;
  j_message : option string
}.

(** What [httpx.post(f"{runner_url}/nodes/add-node", ...)] does: it answers
    with a status code, a body text and, when the body is a JSON object,
    its [outputs] member; or the request itself fails (host unreachable,
    timeout), which [httpx] raises as a [RequestError]. *)
Inductive RunnerReply :=
| Responded (status_code : Z) (text : string) (json : option (option OutputsJson))
| RequestError (msg : string).

(** The three handlers of [Node.run] tell exceptions apart by class. *)
Inductive RunFailure :=
| HTTPStatusError (status_code : Z) (text : string)
| HttpxRequestError (msg : string)
| OtherException (msg : string).

(** [response.raise_for_status()]: any status outside 2xx raises. *)
Definition is_success (status_code : Z) : bool :=
  (200 <=? status_code) && (status_code <=? 299).

(** [NodeOutputs(nodes=..., outputs=..., status=..., message=...)] built from
    [response_json.get("outputs").get(...)]: a missing [outputs] member or a
    missing key fails inside the [try] block. *)
Definition parse_outputs (outputs : option OutputsJson) : RunFailure + NodeOutputs :=
  match outputs with
  | None => inl (OtherException "'NoneType' object has no attribute 'get'")
  | Some o =>
      match j_nodes o, j_outputs o, j_status o, j_message o with
      | Some ns, Some os, Some st, Some msg => inr (mkNodeOutputs ns os st msg)
      | _, _, _, _ => inl (OtherException "validation error for NodeOutputs")
      end
  end.

(** The [try] block of [Node.run] up to the construction of [_output]: the
    log lines it appends, and the exception it raises or the [_output] it
    builds. *)
Definition run_try (reply : RunnerReply) : list string * (RunFailure + NodeOutputs) :=
  match reply with
  | RequestError msg => ([], inl (HttpxRequestError msg))
  | Responded status_code text json =>
      if is_success status_code then
        match json with
        | None => ([], inl (OtherException "response body is not a JSON object"))
        | Some outputs => (["✅ Node executed successfully."], parse_outputs outputs)
        end
      else ([], inl (HTTPStatusError status_code text))
  end.

Definition str_of_Z (z : Z) : string := pretty z.

(** [error_msg], the line each [except] clause of [Node.run] logs. *)
Definition failure_log (self : Node) (f : RunFailure) : string :=
  match f with
  | HTTPStatusError status_code text =>
      "❌ HTTP error for node '" +:+ name self +:+ "': "
      +:+ str_of_Z status_code +:+ " - " +:+ text
  | HttpxRequestError msg => "❌ Request failed for node '" +:+ name self +:+ "': " +:+ msg
  | OtherException msg => "❌ Unexpected error in node '" +:+ name self +:+ "': " +:+ msg
  end.

(** The [message] each [except] clause puts in [outputs]: [error_msg] for an
    HTTP status error, [str(e)] for the other two. *)
Definition failure_message (self : Node) (f : RunFailure) : string :=
  match f with
  | HTTPStatusError _ _ => failure_log self f
  | HttpxRequestError msg => msg
  | OtherException msg => msg
  end.

(** [Node.run(inputs)], with the fresh [uuid4()] and the runner's reply as
    inputs.  The success path passes [code=self.code]; each of the three
    [except] clauses passes [code_base64=self.code] instead. *)
Definition run (self : Node) (inputs : PyDict) (fresh : UUID) (reply : RunnerReply)
  : Res NodeExecutionData :=
  let logs := ["🚀 Node '" +:+ name self +:+ "' initialized with runner ID " +:+ fresh +:+ "."] in
  let '(appended, outcome) := run_try reply in
  let logs := (logs ++ appended)%list in
  match outcome with
  | inr _output =>
      NodeExecutionData_init
        [("node_name", KwStr (name self)); ("runner_id", KwUUID fresh);
         ("code", KwStr (code self)); ("status", KwStr "success");
         ("inputs", KwDict inputs); ("logs", KwStrList logs);
         ("outputs", KwOutputs _output)]
  | inl f =>
      let logs := (logs ++ [failure_log self f])%list in
      NodeExecutionData_init
        [("node_name", KwStr (name self)); ("runner_id", KwUUID fresh);
         ("code_base64", KwStr (code self)); ("status", KwStr "failed");
         ("inputs", KwDict inputs); ("logs", KwStrList logs);
         ("outputs", KwOutputs (mkNodeOutputs [] ∅ "error" (failure_message self f)))]
  end.

(** ** controlunit/fcb/flow.py *)

Record Flow := mkFlow {
  nodes : gmap string Node;
  curr_inp_data : PyDict;
  curr_node : option Node
}.

(** [Flow.set_pointer(node, inp_data)]: guarded by [self.nodes.get(node.name)
    is not None]; otherwise it raises and leaves the flow as it was. *)
Definition set_pointer (self : Flow) (node : Node) (inp_data : PyDict) : Res Flow :=
  match nodes self !! name node with
  | Some _ => Ok (mkFlow (nodes self) inp_data (Some node))
  | None => Raise (ValueError ("Node with name '" +:+ name node +:+ "' not present in flow"))
  end.

Definition get_curr_node (self : Flow) : option Node := curr_node self.
Definition get_curr_inp (self : Flow) : PyDict := curr_inp_data self.

(** [Flow.to_dict()]. *)
Record FlowDict := mkFlowDict {
  d_nodes : gmap string NodeDict;
  d_curr_inp_data : PyDict;
  d_curr_node : option NodeDict
}.

Definition Flow_to_dict (self : Flow) : FlowDict :=
  mkFlowDict (Node_to_dict <$> nodes self) (curr_inp_data self)
             (Node_to_dict <$> curr_node self).

(** ** controlunit/fcb/flow_control_block.py *)

(** The JSON body [post_trace_request] sends; the query string carries
    [flow_id] and [flow_lvl]. *)
Record TracePayload := mkTracePayload {
  tp_node_name : string;
  tp_runner_id : string;
  tp_code_base64 : string;
  tp_status : string;
  tp_inputs : PyDict;
  tp_logs : list string;
  tp_outputs : NodeOutputs
}.

(** The JSON the trace service answers with. *)
Record TraceReply := mkTraceReply {
  r_message : string;
  r_trace_id : string;
  r_flow_id : string;
  r_flow_lvl : Z;
  r_current_sequence : Z
}.

(** What [requests.post(url, ..., timeout=10)] to the trace service does: an
    answer with a status code and (when the body parses) its JSON, or a
    failed request (connection refused, timeout).  [requests] raises all of
    these failures, the one of [raise_for_status] and the one of [json()]
    included, as subclasses of [RequestException]. *)
Inductive TraceOutcome :=
| TraceResponded (status_code : Z) (json : option TraceReply)
| TraceRequestFailed (msg : string).

(** [requests]' [raise_for_status]: 4xx and 5xx raise [HTTPError]. *)
Definition is_http_error (status_code : Z) : bool :=
  (400 <=? status_code) && (status_code <? 600).

Inductive BlockStatus := QUEUED | START | PAUSE | STOP.

Definition BlockStatus_eqb (a b : BlockStatus) : bool :=
  match a, b with
  | QUEUED, QUEUED | START, START | PAUSE, PAUSE | STOP, STOP => true
  | _, _ => false
  end.

(** The fields of a [FlowControlBlock] that hold state.  [thread_pool],
    [save_state_hook] and [stop_hook] are references to the queue that owns
    the block; calls through them are recorded as [Call]s. *)
Record FlowControlBlock := mkFCB {
  flow : Flow;
  flow_id : UUID;
  node_exec_queue : list (Node * PyDict);
  status : BlockStatus
}.

(** [FlowControlBlock.__init__]. *)
Definition FlowControlBlock_init (flow : Flow) (flow_id : UUID) : FlowControlBlock :=
  mkFCB flow flow_id [] QUEUED.

(** The calls a block makes to the outside, in program order. *)
Inductive Call :=
| Submit                                   (* self.thread_pool.submit(self._run_node) *)
| SaveStateHook (fid : UUID)               (* self.save_state_hook(self.flow_id) *)
| PostTrace (fid : UUID) (lvl : Z) (payload : TracePayload).

(** A method of a block: it reads and mutates [self], makes calls, and
    returns or raises.  Mutations and calls made before a [raise] stay. *)
Definition Act (A : Type) : Type :=
  FlowControlBlock * list Call -> Res A * (FlowControlBlock * list Call).

Definition ret {A} (a : A) : Act A := fun s => (Ok a, s).

Definition bind {A B} (m : Act A) (k : A -> Act B) : Act B :=
  fun s => match m s with
           | (Ok a, s') => k a s'
           | (Raise e, s') => (Raise e, s')
           end.

Notation "'do!' x <- m ; k" := (bind m (fun x => k))
  (at level 10, x binder, m at level 100, k at level 200).
Notation "m >> k" := (bind m (fun _ => k)) (at level 90, right associativity).

Definition raise {A} (e : Exn) : Act A := fun s => (Raise e, s).
Definition lift {A} (r : Res A) : Act A := fun s => (r, s).
Definition get_self : Act FlowControlBlock := fun s => (Ok (fst s), s).
Definition update (f : FlowControlBlock -> FlowControlBlock) : Act unit :=
  fun s => (Ok tt, (f (fst s), snd s)).
Definition call (c : Call) : Act unit :=
  fun s => (Ok tt, (fst s, (snd s ++ [c])%list)).

(** [try: m except Exception as e: h e]. *)
Definition try_except {A} (m : Act A) (h : Exn -> Act A) : Act A :=
  fun s => match m s with
           | (Ok a, s') => (Ok a, s')
           | (Raise e, s') => h e s'
           end.

Definition set_status (st : BlockStatus) : Act unit :=
  update (fun self => mkFCB (flow self) (flow_id self) (node_exec_queue self) st).
Definition set_flow (f : Flow) : Act unit :=
  update (fun self => mkFCB f (flow_id self) (node_exec_queue self) (status self)).
Definition set_node_exec_queue (q : list (Node * PyDict)) : Act unit :=
  update (fun self => mkFCB (flow self) (flow_id self) q (status self)).

(** [post_trace_request(...)]: builds the payload ([runner_id] is
    [str(flow_id)]; [x or {}] and [x or []] leave a dictionary or a list as it
    is), posts it, and returns the JSON answer, or [None] on any
    [RequestException]. *)
Definition post_trace_request (fid : UUID) (lvl : Z) (node_name : string)
    (code_base64 status : string) (inputs : PyDict) (logs : list string)
    (outputs_nodes : list string) (outputs_data : PyDict)
    (outputs_status outputs_message : string) (outcome : TraceOutcome)
  : Act (option TraceReply) :=
  let payload :=
    mkTracePayload node_name fid code_base64 status inputs logs
      (mkNodeOutputs outputs_nodes outputs_data outputs_status outputs_message) in
  call (PostTrace fid lvl payload) >>
  match outcome with
  | TraceResponded status_code json =>
      if is_http_error status_code then ret None else ret json
  | TraceRequestFailed _ => ret None
  end.

(** [FlowControlBlock.exec]. *)
Definition exec : Act unit :=
  do! self <- get_self;
  match status self with
  | PAUSE | STOP => ret tt
  | _ => call Submit
  end.

(** [FlowControlBlock.start]. *)
Definition start : Act unit := set_status START >> exec.

(** [FlowControlBlock.stop]; the call of [stop_hook] is commented out in the
    source. *)
Definition stop : Act unit := set_status STOP.

(** [FlowControlBlock.pause]. *)
Definition pause : Act unit := set_status PAUSE.

(** [FlowControlBlock.resumse] (the name the source gives the method). *)
Definition resumse : Act unit :=
  do! self <- get_self;
  if BlockStatus_eqb (status self) PAUSE then set_status START >> exec
  else ret tt.

(** The [for node_name in result.outputs.nodes] loop of [exec_hook]. *)
Fixpoint enqueue_successors (names : list string) (outputs : PyDict) : Act unit :=
  match names with
  | [] => ret tt
  | node_name :: rest =>
      do! self <- get_self;
      match nodes (flow self) !! node_name with
      | Some n =>
          set_node_exec_queue (node_exec_queue self ++ [(n, outputs)])%list >>
          enqueue_successors rest outputs
      | None =>
          raise (ValueError ("Node '" +:+ node_name +:+ "' not present in flow " +:+ flow_id self))
      end
  end.

(** [FlowControlBlock.exec_hook(result)]. *)
Definition exec_hook (result : NodeExecutionData) : Act unit :=
  try_except
    (enqueue_successors (nodes_of (ned_outputs result)) (outputs_of (ned_outputs result)) >>
     do! self <- get_self;
     match node_exec_queue self with
     | [] => stop
     | (_node, _inputs) :: rest =>
         set_node_exec_queue rest >>
         (do! f <- lift (set_pointer (flow self) _node _inputs);
          set_flow f >>
          do! self <- get_self;
          call (SaveStateHook (flow_id self)) >>
          exec)
     end)
    (fun _ => set_status STOP).

(** The rest of the [try] block of [_run_node] once [curr_node.run] has
    returned [result]: the hook first, then the trace. *)
Definition after_run (curr_node : Node) (curr_inp : PyDict) (result : NodeExecutionData)
    (trace : TraceOutcome) : Act unit :=
  exec_hook result >>
  do! self <- get_self;
  do! _ <- post_trace_request (flow_id self) (flow_lvl curr_node)
             (name curr_node) (get_code curr_node) (ned_status result)
             curr_inp (ned_logs result)
             (nodes_of (ned_outputs result)) (outputs_of (ned_outputs result))
             (out_status (ned_outputs result)) (out_message (ned_outputs result))
             trace;
  ret tt.

(** [FlowControlBlock._run_node], one step of the flow.  The fresh uuid of
    the dispatch, the runner's reply and the outcome of the trace post are
    its inputs. *)
Definition _run_node (fresh : UUID) (reply : RunnerReply) (trace : TraceOutcome) : Act unit :=
  do! self <- get_self;
  let curr_inp := get_curr_inp (flow self) in
  match get_curr_node (flow self) with
  | None => stop
  | Some curr_node =>
      try_except
        (do! result <- lift (run curr_node curr_inp fresh reply);
         after_run curr_node curr_inp result trace)
        (fun _ => set_status STOP)
  end.

(** Running a method on a block: the block afterwards and the calls made. *)
Definition perform {A} (m : Act A) (self : FlowControlBlock)
  : Res A * FlowControlBlock * list Call :=
  let '(r, (self', calls)) := m (self, []) in (r, self', calls).

Definition after {A} (m : Act A) (self : FlowControlBlock) : FlowControlBlock :=
  fst (snd (m (self, []))).

Definition calls_of {A} (m : Act A) (self : FlowControlBlock) : list Call :=
  snd (snd (m (self, []))).

(** ** controlunit/fcb_queue.py *)

(** The state of a [FlowControlBlockQueue].

    - [Blocks] is the dictionary of the source; it holds the blocks
      themselves, each under its own [flow_id].
    - [collection] is the MongoDB collection of documents
      [{flow_id, state}].  Its only writers are [update_one] with
      [upsert=True] and [delete_one], both filtered by [flow_id], so it is
      a map from [flow_id] to [state].  The store is taken to be reachable.
    - [threadpool] is the queue of submitted [_run_node] tasks, each named
      by the block it is bound to.
    - [detached] holds blocks that were popped from [Blocks] while tasks
      bound to them may still be queued.
    - [traces] is what was posted to the trace service. *)
Record Queue := mkQueue {
  Blocks : gmap UUID FlowControlBlock;
  collection : gmap UUID FlowDict;
  threadpool : list UUID;
  detached : gmap UUID FlowControlBlock;
  traces : list (UUID * Z * TracePayload)
}.

(** [FlowControlBlockQueue.__init__] over an existing store. *)
Definition Queue_init (store : gmap UUID FlowDict) : Queue :=
  mkQueue ∅ store [] ∅ [].

Definition set_Blocks (b : gmap UUID FlowControlBlock) (q : Queue) : Queue :=
  mkQueue b (collection q) (threadpool q) (detached q) (traces q).
Definition set_collection (c : gmap UUID FlowDict) (q : Queue) : Queue :=
  mkQueue (Blocks q) c (threadpool q) (detached q) (traces q).
Definition set_threadpool (t : list UUID) (q : Queue) : Queue :=
  mkQueue (Blocks q) (collection q) t (detached q) (traces q).
Definition set_detached (d : gmap UUID FlowControlBlock) (q : Queue) : Queue :=
  mkQueue (Blocks q) (collection q) (threadpool q) d (traces q).
Definition set_traces (t : list (UUID * Z * TracePayload)) (q : Queue) : Queue :=
  mkQueue (Blocks q) (collection q) (threadpool q) (detached q) t.

(** [save_state_hook(flow_id)]: upserts [Blocks[flow_id].flow.to_dict()];
    an unknown [flow_id] raises inside its own [try] and is only logged. *)
Definition save_state_hook (fid : UUID) (q : Queue) : Queue :=
  match Blocks q !! fid with
  | None => q
  | Some fcb => set_collection (<[fid := Flow_to_dict (flow fcb)]> (collection q)) q
  end.

(** One call made by the block [self_id], as the queue sees it. *)
Definition deliver (self_id : UUID) (c : Call) (q : Queue) : Queue :=
  match c with
  | Submit => set_threadpool (threadpool q ++ [self_id])%list q
  | SaveStateHook fid => save_state_hook fid q
  | PostTrace fid lvl payload => set_traces (traces q ++ [(fid, lvl, payload)])%list q
  end.

Definition deliver_all (self_id : UUID) (calls : list Call) (q : Queue) : Queue :=
  fold_left (fun q c => deliver self_id c q) calls q.

(** A method [m] run on the registered block [fid]: the block is updated in
    place and its calls reach the queue.  (Within one method the flow of
    the block does not change after [save_state_hook] is called, so the
    hook reads the flow it would read in the source.) *)
Definition on_block {A} (fid : UUID) (fcb : FlowControlBlock) (m : Act A) (q : Queue)
  : Res A * Queue :=
  let '(r, fcb', calls) := perform m fcb in
  (r, deliver_all fid calls (set_Blocks (<[fid := fcb']> (Blocks q)) q)).

(** [stop_hook(flow_id)]; nothing in the source calls it. *)
Definition stop_hook (fid : UUID) (q : Queue) : Queue :=
  match Blocks q !! fid with
  | None => q
  | Some fcb =>
      let '(_, q1) := on_block fid fcb stop q in
      let q2 := match Blocks q1 !! fid with
                | Some o => set_detached (<[fid := o]> (detached q1))
                              (set_Blocks (delete fid (Blocks q1)) q1)
                | None => q1
                end in
      set_collection (delete fid (collection q2)) q2
  end.

(** [add_fcb(flow)], with the fresh [uuid4()] as input. *)
Definition add_fcb (flow : Flow) (fresh : UUID) (q : Queue) : UUID * Queue :=
  (fresh, set_Blocks (<[fresh := FlowControlBlock_init flow fresh]> (Blocks q)) q).

Definition not_found (fid : UUID) : Exn := ValueError ("Flow " +:+ fid +:+ " not found").

(** [start_fcb(flow_id)]. *)
Definition start_fcb (fid : UUID) (q : Queue) : Res unit * Queue :=
  match Blocks q !! fid with
  | None => (Raise (not_found fid), q)
  | Some fcb => on_block fid fcb start q
  end.

(** [stop_fcb(flow_id)]. *)
Definition stop_fcb (fid : UUID) (q : Queue) : Res unit * Queue :=
  match Blocks q !! fid with
  | None => (Raise (not_found fid), q)
  | Some fcb =>
      let '(_, q1) := on_block fid fcb stop q in
      let q2 := match Blocks q1 !! fid with
                | Some o => set_detached (<[fid := o]> (detached q1))
                              (set_Blocks (delete fid (Blocks q1)) q1)
                | None => q1
                end in
      (Ok tt, set_collection (delete fid (collection q2)) q2)
  end.

(** [pause_fcb(flow_id)]. *)
Definition pause_fcb (fid : UUID) (q : Queue) : Res unit * Queue :=
  match Blocks q !! fid with
  | None => (Raise (not_found fid), q)
  | Some fcb => on_block fid fcb pause q
  end.

(** Attribute lookup on a block, for a call without arguments.  The class
    defines [start], [stop], [pause], [resumse] and [exec] (and, with
    arguments or for the pool, [_run_node], [exec_hook], [get_save_state]
    and [load_from_save_state]); a name it does not define raises
    [AttributeError]. *)
Definition getattr (method : string) : Res (Act unit) :=
  if String.eqb method "start" then Ok start
  else if String.eqb method "stop" then Ok stop
  else if String.eqb method "pause" then Ok pause
  else if String.eqb method "resumse" then Ok resumse
  else if String.eqb method "exec" then Ok exec
  else Raise (AttributeError
         ("'FlowControlBlock' object has no attribute '" +:+ method +:+ "'")).

(** [resume_fcb(flow_id)]: it calls [fcb.resume()]. *)
Definition resume_fcb (fid : UUID) (q : Queue) : Res unit * Queue :=
  match Blocks q !! fid with
  | None => (Raise (not_found fid), q)
  | Some fcb =>
      match getattr "resume" with
      | Ok m => on_block fid fcb m q
      | Raise e => (Raise e, q)
      end
  end.

(** [Node(node_data["name"], node_data["code"], node_data.get("flow_lvl"))]. *)
Definition Node_of_dict (d : NodeDict) : Node :=
  mkNode (d_name d) (d_code d) (d_flow_lvl d).

(** The [Flow] that [recover_from_storage] rebuilds from a document. *)
Definition Flow_of_dict (flow_dict : FlowDict) : Flow :=
  mkFlow (Node_of_dict <$> d_nodes flow_dict) (d_curr_inp_data flow_dict)
         (Node_of_dict <$> d_curr_node flow_dict).

(** The body of the loop of [recover_from_storage] for one document. *)
Definition recover_block (q : Queue) (block : UUID * FlowDict) : Queue :=
  let '(fid, flow_dict) := block in
  let fcb := FlowControlBlock_init (Flow_of_dict flow_dict) fid in
  snd (on_block fid fcb start q).

(** [recover_from_storage()]: every document of the collection becomes a
    registered, started block. *)
Definition recover_from_storage (q : Queue) : Queue :=
  fold_left recover_block (map_to_list (collection q)) q.

(** A worker of the pool takes the oldest submitted task and runs
    [_run_node] of the block it is bound to, to completion. *)
Definition worker_step (fresh : UUID) (reply : RunnerReply) (trace : TraceOutcome)
    (q : Queue) : Queue :=
  match threadpool q with
  | [] => q
  | fid :: rest =>
      let q := set_threadpool rest q in
      match Blocks q !! fid with
      | Some fcb => snd (on_block fid fcb (_run_node fresh reply trace) q)
      | None =>
          match detached q !! fid with
          | Some fcb =>
              let '(_, fcb', calls) := perform (_run_node fresh reply trace) fcb in
              deliver_all fid calls (set_detached (<[fid := fcb']> (detached q)) q)
          | None => q
          end
      end
  end.

(** ** main.py *)

Record NodeDTO := mkNodeDTO {
  dto_name : string;
  dto_code : string;
  dto_flow_lvl : Z
}.

Record AddFCBRequest := mkAddFCBRequest {
  req_nodes : gmap string NodeDTO;
  req_curr_inp : PyDict;
  req_curr_node : NodeDTO
}.

Definition Node_of_DTO (d : NodeDTO) : Node :=
  mkNode (dto_name d) (dto_code d) (dto_flow_lvl d).

(** The [Flow] that the [/fcb/add] handler builds from its request
    ([curr_node] is a required member of the request). *)
Definition Flow_of_request (req : AddFCBRequest) : Flow :=
  mkFlow (Node_of_DTO <$> req_nodes req) (req_curr_inp req)
         (Some (Node_of_DTO (req_curr_node req))).

(** [POST /fcb/add]: the answer ([flow_id], or status 500) and the queue. *)
Definition http_add_fcb (req : AddFCBRequest) (fresh : UUID) (q : Queue) : (Z + UUID) * Queue :=
  let '(id, q1) := add_fcb (Flow_of_request req) fresh q in
  match start_fcb id q1 with
  | (Ok _, q2) => (inr id, q2)
  | (Raise _, q2) => (inl 500, q2)
  end.

(** The status code of a handler that maps [ValueError] to 404 and any
    other exception to 500. *)
Definition http_status (r : Res unit) : Z :=
  match r with
  | Ok _ => 200
  | Raise (ValueError _) => 404
  | Raise _ => 500
  end.

(** [POST /fcb/{flow_id}/pause]. *)
Definition http_pause_fcb (fid : UUID) (q : Queue) : Z * Queue :=
  let '(r, q') := pause_fcb fid q in (http_status r, q').

(** [POST /fcb/{flow_id}/resume]. *)
Definition http_resume_fcb (fid : UUID) (q : Queue) : Z * Queue :=
  let '(r, q') := resume_fcb fid q in (http_status r, q').

(** ** Notions used to state properties of the executor *)

(** The pointer invariant of a flow: a pointer that is set names a key of
    [nodes]. *)
Definition pointer_invariant (f : Flow) : Prop :=
  forall n, curr_node f = Some n -> is_Some (nodes f !! name n).

(** The queue entries the loop of [exec_hook] appends for names that are
    keys of the flow. *)
Fixpoint successor_entries (f : Flow) (outputs : PyDict) (names : list string)
  : list (Node * PyDict) :=
  match names with
  | [] => []
  | n :: rest =>
      match nodes f !! n with
      | Some nd => (nd, outputs) :: successor_entries f outputs rest
      | None => successor_entries f outputs rest
      end
  end.

(** The number of steps a list of calls submits to the pool. *)
Definition is_submit (c : Call) : bool :=
  match c with
  | Submit => true
  | _ => false
  end.

Definition submissions (calls : list Call) : nat :=
  length (List.filter is_submit calls).

(** What the trace post returns. *)
Definition trace_answer (outcome : TraceOutcome) : option TraceReply :=
  match outcome with
  | TraceResponded status_code json => if is_http_error status_code then None else json
  | TraceRequestFailed _ => None
  end.

(** The trace payload of a step. *)
Definition trace_of (curr_node : Node) (curr_inp : PyDict) (result : NodeExecutionData)
    (fid : UUID) : Call :=
  PostTrace fid (flow_lvl curr_node)
    (mkTracePayload (name curr_node) fid (get_code curr_node) (ned_status result)
       curr_inp (ned_logs result) (ned_outputs result)).

(** A method that changes [status] to [STOP] or not at all. *)
Definition only_stops {A} (m : Act A) : Prop :=
  forall s, status (fst (snd (m s))) = status (fst s)
            \/ status (fst (snd (m s))) = STOP.

(** The flow of [test/flow_runner_test.py]: [start] names [node1] as its
    successor, [node1] names none.  The code blobs are opaque to the
    executor and shortened here. *)
Module Scenario.

Definition start_dto : NodeDTO := mkNodeDTO "start" "c3RhcnQ=" 1.
Definition node1_dto : NodeDTO := mkNodeDTO "node1" "bm9kZTE=" 2.

Definition request : AddFCBRequest :=
  mkAddFCBRequest (<["start" := start_dto]> (<["node1" := node1_dto]> ∅)) ∅ start_dto.

Definition fid : UUID := "6f1c2a9e-0000-4000-8000-000000000001".

(** The runner's answer for a node that returns [(nodes, outputs, message)]. *)
Definition done (ns : list string) (outputs : PyDict) : RunnerReply :=
  Responded 200 ""
    (Some (Some (mkOutputsJson (Some ns) (Some outputs) (Some "DONE")
                               (Some "run successfully")))).

Definition saved : TraceOutcome := TraceResponded 200 None.

Definition ab : PyDict := <["a" := VInt 1]> (<["b" := VInt 2]> ∅).

(** The executor after [POST /fcb/add]. *)
Definition added : Queue := snd (http_add_fcb request fid (Queue_init ∅)).

(** ... after the step that runs [start]. *)
Definition after_start : Queue := worker_step "runner-1" (done ["node1"] ab) saved added.

(** ... after the step that runs [node1], the last node. *)
Definition finished : Queue :=
  worker_step "runner-2" (done [] (<["out" := VInt 3]> ∅)) saved after_start.

(** ... after [POST /fcb/{flow_id}/pause] sent once [start] has run. *)
Definition paused : Queue := snd (http_pause_fcb fid after_start).

(** The block of the flow right after [/fcb/add]: pointer at [start]. *)
Definition block : FlowControlBlock :=
  mkFCB (Flow_of_request request) fid [] START.

(** The same block once it has stopped. *)
Definition stopped_block : FlowControlBlock :=
  mkFCB (Flow_of_request request) fid [] STOP.

(** A runner answer whose output status is ["error"] and that still names
    [node1] as successor. *)
Definition error_with_successor : RunnerReply :=
  Responded 200 ""
    (Some (Some (mkOutputsJson (Some ["node1"]) (Some ∅) (Some "error") (Some "boom")))).

(** A result with status ["failed"] that names [node1] as successor. *)
Definition failed_with_successor : NodeExecutionData :=
  mkNodeExecutionData "start" "runner-1" "c3RhcnQ=" "failed" ∅ []
    (mkNodeOutputs ["node1"] ∅ "error" "boom").


(** A request whose pointer names a node that is no key of [nodes]. *)
Definition dangling_request : AddFCBRequest :=
  mkAddFCBRequest (<["start" := start_dto]> ∅) ∅ (mkNodeDTO "ghost" "Z2hvc3Q=" 1).

(** The executor process started again over the same store. *)
Definition rebooted : Queue := recover_from_storage (Queue_init (collection finished)).

End Scenario.

(** ** flow_control_block.py: saving and loading a block *)

(** [BlockStatus.value]. *)
Definition BlockStatus_value (s : BlockStatus) : string :=
  match s with
  | QUEUED => "QUEUED"
  | START => "START"
  | PAUSE => "PAUSE"
  | STOP => "STOP"
  end.

(** [BlockStatus(value)]: the member with that value, or [ValueError]. *)
Definition BlockStatus_of_value (v : string) : Res BlockStatus :=
  if String.eqb v "QUEUED" then Ok QUEUED
  else if String.eqb v "START" then Ok START
  else if String.eqb v "PAUSE" then Ok PAUSE
  else if String.eqb v "STOP" then Ok STOP
  else Raise (ValueError ("'" +:+ v +:+ "' is not a valid BlockStatus")).

(** The dictionary [get_save_state] returns.  [flow_id] holds [str(flow_id)],
    which [UUID(...)] reads back as it is. *)
Record SaveState := mkSaveState {
  s_flow : FlowDict;
  s_flow_id : string;
  s_node_exec_queue : list (NodeDict * PyDict);
  s_status : string
}.

(** [FlowControlBlock.get_save_state]. *)
Definition get_save_state (self : FlowControlBlock) : SaveState :=
  mkSaveState (Flow_to_dict (flow self)) (flow_id self)
    (List.map (fun e => (Node_to_dict (fst e), snd e)) (node_exec_queue self))
    (BlockStatus_value (status self)).

Definition set_flow_id (fid : UUID) : Act unit :=
  update (fun self => mkFCB (flow self) fid (node_exec_queue self) (status self)).

(** [FlowControlBlock.load_from_save_state(state)]: the four assignments of
    the source, in their order; the last one may raise. *)
Definition load_from_save_state (state : SaveState) : Act unit :=
  set_flow (Flow_of_dict (s_flow state)) >>
  set_flow_id (s_flow_id state) >>
  set_node_exec_queue
    (List.map (fun e => (Node_of_dict (fst e), snd e)) (s_node_exec_queue state)) >>
  do! st <- lift (BlockStatus_of_value (s_status state));
  set_status st.

(** ** The pool at work *)

(** What a worker needs from outside for one step: the fresh uuid of the
    dispatch, the runner's reply and the outcome of the trace post. *)
Definition StepInput : Type := UUID * RunnerReply * TraceOutcome.

(** The workers running one submitted step after the other. *)
Definition run_workers (inputs : list StepInput) (q : Queue) : Queue :=
  fold_left (fun q i => worker_step (fst (fst i)) (snd (fst i)) (snd i) q) inputs q.

(** The calls [exec_hook] makes when it moves the pointer: the checkpoint,
    and the next step unless the block is paused or stopped. *)
Definition advance_calls (self : FlowControlBlock) : list Call :=
  SaveStateHook (flow_id self)
  :: match status self with
     | PAUSE | STOP => []
     | _ => [Submit]
     end.

Definition is_post_trace (c : Call) : bool :=
  match c with
  | PostTrace _ _ _ => true
  | _ => false
  end.

(** A request in which the node stored under ["node1"] calls itself
    ["other"], a name that is no key of [nodes]. *)
Definition misnamed_request : AddFCBRequest :=
  mkAddFCBRequest
    (<["start" := Scenario.start_dto]> (<["node1" := mkNodeDTO "other" "b3RoZXI=" 2]> ∅))
    ∅ Scenario.start_dto.


End Executor.

Module TraceMonitor.

(** ** FlowTraceMonitor/main.py *)

(** A document of the trace collection: [data.dict()] with [_id],
    [flow_id], [flow_lvl] and [current_sequence] added. *)
Record TraceRecord := mkTraceRecord {
  _id : string;
  flow_id : string;
  flow_lvl : Z;
  current_sequence : Z;
  data : Executor.TracePayload
}.

(** The process and its store: [flow_registry] is the module-level
    dictionary, [collection] the MongoDB collection (documents in insertion
    order). *)
Record Server := mkServer {
  flow_registry : gmap string Z;
  collection : list TraceRecord
}.

(** Starting the process: the module is loaded, so [flow_registry = {}];
    the collection is whatever the database holds. *)
Definition boot (store : list TraceRecord) : Server := mkServer ∅ store.


(** [POST /trace]: [save_trace(data, flow_id, flow_lvl)] with the fresh
    [uuid4()] as input; the answer and the server afterwards. *)
Definition save_trace (d : Executor.TracePayload) (fid : UUID) (lvl : Z) (fresh : UUID)
    (s : Server) : Executor.TraceReply * Server :=
  let registry := <[fid := default 0 (flow_registry s !! fid) + 1]> (flow_registry s) in
  let sequence := default 0 (registry !! fid) in
  let record := mkTraceRecord fresh fid lvl sequence d in
  (Executor.mkTraceReply "Trace saved successfully" fresh fid lvl sequence,
   mkServer registry (collection s ++ [record])).

(** The [current_sequence] values stored for a flow, in insertion order. *)
Definition sequences_of (fid : UUID) (store : list TraceRecord) : list Z :=
  current_sequence <$> filter (fun r => flow_id r = fid) store.

(** A [/trace] request. *)
Record TraceRequest := mkTraceRequest {
  q_data : Executor.TracePayload;
  q_flow_id : UUID;
  q_flow_lvl : Z;
  q_fresh : UUID
}.

(** The server after a sequence of [/trace] requests. *)
Definition serve (reqs : list TraceRequest) (s : Server) : Server :=
  fold_left (fun s r => snd (save_trace (q_data r) (q_flow_id r) (q_flow_lvl r) (q_fresh r) s))
            reqs s.




(** ** FlowTraceMonitor/main.py: reading and deleting *)






(** [collection.delete_one({"_id": trace_id})]: the first document with that
    id goes; the number of documents deleted. *)
Fixpoint delete_one (trace_id : string) (l : list TraceRecord) : nat * list TraceRecord :=
  match l with
  | [] => (O, [])
  | r :: l' =>
      if String.eqb (_id r) trace_id then (1%nat, l')
      else let '(n, l'') := delete_one trace_id l' in (n, r :: l'')
  end.

(** [DELETE /trace/{trace_id}]: [delete_trace(trace_id)]; the status of the
    answer and the server afterwards. *)
Definition delete_trace (trace_id : string) (s : Server) : Z * Server :=
  let '(deleted_count, store) := delete_one trace_id (collection s) in
  if Nat.eqb deleted_count 0 then (404, mkServer (flow_registry s) store)
  else (200, mkServer (flow_registry s) store).

(** The records that requests of one flow are stored as, when the counter of
    the flow stands at [base]. *)
Fixpoint stored_as (base : Z) (reqs : list TraceRequest) : list TraceRecord :=
  match reqs with
  | [] => []
  | r :: rs =>
      mkTraceRecord (q_fresh r) (q_flow_id r) (q_flow_lvl r) (base + 1) (q_data r)
      :: stored_as (base + 1) rs
  end.


(** One flow traced once, the recorder restarted, the flow traced again. *)
Module Scenario.

Definition fid : UUID := "6f1c2a9e-0000-4000-8000-000000000001".

Definition payload (node : string) : Executor.TracePayload :=
  Executor.mkTracePayload node fid "" "success" ∅ []
    (Executor.mkNodeOutputs [] ∅ "DONE" "run successfully").

Definition first_run : Server := snd (save_trace (payload "start") fid 1 "trace-1" (boot [])).


End Scenario.

End TraceMonitor.

Module Secrets.

(** ** NodeRunner/node_runner/task_manager/node.py *)

Definition opening : string := "{{{secret::".
Definition closing : string := "}}}".

(** [s.startswith(p)], returning the rest of [s]. *)
Fixpoint strip_prefix (p s : string) : option string :=
  match p with
  | EmptyString => Some s
  | String a p' =>
      match s with
      | EmptyString => None
      | String b s' => if Ascii.eqb a b then strip_prefix p' s' else None
      end
  end.

Definition newline : ascii := "010"%char.

(** The lazy group [(.*?)] followed by the three closing braces: the
    shortest run of characters other than newline that is followed by
    [closing].  Returns the group and what follows the match. *)
Fixpoint lazy_key (s : string) : option (string * string) :=
  match strip_prefix closing s with
  | Some rest => Some (EmptyString, rest)
  | None =>
      match s with
      | EmptyString => None
      | String c s' =>
          if Ascii.eqb c newline then None
          else match lazy_key s' with
               | Some (k, rest) => Some (String c k, rest)
               | None => None
               end
      end
  end.

(** [pattern.findall(text)]: the groups of the non-overlapping matches,
    scanning from the left.  Every round consumes a character, so
    [length text] rounds are enough. *)
Fixpoint findall_fuel (fuel : nat) (s : string) : list string :=
  match fuel with
  | O => []
  | S fuel' =>
      match s with
      | EmptyString => []
      | String _ s' =>
          match strip_prefix opening s with
          | Some body =>
              match lazy_key body with
              | Some (key, rest) => key :: findall_fuel fuel' rest
              | None => findall_fuel fuel' s'
              end
          | None => findall_fuel fuel' s'
          end
      end
  end.

Definition findall (text : string) : list string :=
  findall_fuel (String.length text) text.

(** [s.replace(old, new)] for a non-empty [old]: the non-overlapping
    occurrences of [old], from the left, are replaced; [new] is not
    looked at again. *)
Fixpoint replace_fuel (fuel : nat) (old new s : string) : string :=
  match fuel with
  | O => s
  | S fuel' =>
      match s with
      | EmptyString => EmptyString
      | String c s' =>
          match strip_prefix old s with
          | Some rest => new +:+ replace_fuel fuel' old new rest
          | None => String c (replace_fuel fuel' old new s')
          end
      end
  end.

(** [s.replace(old, new)]; an empty [old] matches before every character
    and at the end. *)
Definition replace (old new s : string) : string :=
  match old with
  | EmptyString =>
      new +:+ String.concat EmptyString
                (List.map (fun c => String c new) (list_ascii_of_string s))
  | _ => replace_fuel (String.length s) old new s
  end.

Definition placeholder (key : string) : string := opening +:+ key +:+ closing.

(** The answer of [GET {secret_manager}/get/{key}]: the status and the
    [value] member of the JSON body, if any. *)
Record SecretResponse := mkSecretResponse {
  resp_status : Z;
  resp_value : option string
}.

(** The [for key in matches] loop of [resolve_secrets].  [get] is the Secret
    Manager; [fetched] collects the keys requested, in order. *)
Fixpoint resolve_loop (get : string -> SecretResponse) (matches : list string)
    (text : string) (fetched : list string) : Res string * list string :=
  match matches with
  | [] => (Ok text, fetched)
  | key :: rest =>
      let resp := get key in
      let fetched := (fetched ++ [key])%list in
      if negb (resp_status resp =? 200) then
        (Raise (ValueError ("Failed to fetch secret: " +:+ key)), fetched)
      else
        match resp_value resp with
        | None | Some EmptyString =>
            (Raise (ValueError ("Secret not found or empty: " +:+ key)), fetched)
        | Some value => resolve_loop get rest (replace (placeholder key) value text) fetched
        end
  end.

(** [Node.resolve_secrets(text)]: the resolved text (or the exception) and
    the keys requested from the Secret Manager. *)
Definition resolve_secrets (get : string -> SecretResponse) (text : string)
  : Res string * list string :=
  let matches := findall text in
  match matches with
  | [] => (Ok text, [])
  | _ => resolve_loop get matches text []
  end.



(** Does the character occur in the string? *)
Fixpoint has_char (c : ascii) (s : string) : bool :=
  match s with
  | EmptyString => false
  | String c' s' => Ascii.eqb c c' || has_char c s'
  end.

(** An answer that [resolve_secrets] accepts: status 200 and a non-empty
    [value]. *)
Definition usable (r : SecretResponse) : bool :=
  (resp_status r =? 200) &&
  match resp_value r with
  | Some (String _ _) => true
  | _ => false
  end.

Definition value_of (get : string -> SecretResponse) (key : string) : string :=
  default EmptyString (resp_value (get key)).

(** One [str.replace] per key, in order, each on the text the previous one
    produced. *)
Definition replace_each (get : string -> SecretResponse) (keys : list string)
    (text : string) : string :=
  fold_left (fun t key => replace (placeholder key) (value_of get key) t) keys text.

(** A Secret Manager holding the given keys and values: 200 with the value
    for a stored key, 404 otherwise. *)
Definition manager (store : gmap string string) (key : string) : SecretResponse :=
  match store !! key with
  | Some v => mkSecretResponse 200 (Some v)
  | None => mkSecretResponse 404 None
  end.

(** The message of the [ValueError] a key is refused with: the answer was
    not a 200, or it was one without a non-empty [value]. *)
Definition refusal (r : SecretResponse) (key : string) : string :=
  if resp_status r =? 200 then "Secret not found or empty: " +:+ key
  else "Failed to fetch secret: " +:+ key.

(** A store in which the value of [A] is the placeholder of [B]. *)
Module Scenario.

Definition store : gmap string string :=
  <["A" := "{{{secret::B}}}"]> (<["B" := "x"]> (<["OPENAI_KEY" := "sk-xyz"]> ∅)).

Definition text : string := "{{{secret::A}}} {{{secret::B}}}".

End Scenario.

End Secrets.

Module Codec.

(** ** The codecs that [task_manager/node.py] uses

    [base64.b64encode], [base64.b64decode] (without validation) and the
    strict UTF-8 decoder, on byte strings.  A Python [str] is carried as
    its UTF-8 encoding, so [str.encode()] is the identity and
    [bytes.decode("utf-8")] is a check. *)

(** Six bits, the most significant first. *)
Inductive sextet := Sextet (b5 b4 b3 b2 b1 b0 : bool).

Definition sextet_value (x : sextet) : nat :=
  let 'Sextet b5 b4 b3 b2 b1 b0 := x in
  (32 * Nat.b2n b5 + 16 * Nat.b2n b4 + 8 * Nat.b2n b3
   + 4 * Nat.b2n b2 + 2 * Nat.b2n b1 + Nat.b2n b0)%nat.

Definition alphabet : string :=
  "ABCDEFGHIJKLMNOPQRSTUVWXYZabcdefghijklmnopqrstuvwxyz0123456789+/".

(** The character of a sextet. *)
Definition b2a (x : sextet) : ascii :=
  default "A"%char (String.get (sextet_value x) alphabet).

Definition bools : list bool := [false; true].

Definition sextets : list sextet :=
  b5 ← bools; b4 ← bools; b3 ← bools; b2 ← bools; b1 ← bools; b0 ← bools;
  [Sextet b5 b4 b3 b2 b1 b0].

(** The sextet of a character of the alphabet; [None] for any other
    character. *)
Definition a2b (c : ascii) : option sextet :=
  List.find (fun x => Ascii.eqb (b2a x) c) sextets.

(** The four sextets of three bytes.  A byte [Ascii l0 ... l7] has [l0] as
    its least significant bit. *)
Definition first_of (B0 : ascii) : sextet :=
  let 'Ascii _ _ l2 l3 l4 l5 l6 l7 := B0 in Sextet l7 l6 l5 l4 l3 l2.

Definition second_of (B0 B1 : ascii) : sextet :=
  let 'Ascii l0 l1 _ _ _ _ _ _ := B0 in
  let 'Ascii _ _ _ _ m4 m5 m6 m7 := B1 in Sextet l1 l0 m7 m6 m5 m4.

Definition third_of (B1 B2 : ascii) : sextet :=
  let 'Ascii m0 m1 m2 m3 _ _ _ _ := B1 in
  let 'Ascii _ _ _ _ _ _ n6 n7 := B2 in Sextet m3 m2 m1 m0 n7 n6.

Definition fourth_of (B2 : ascii) : sextet :=
  let 'Ascii n0 n1 n2 n3 n4 n5 _ _ := B2 in Sextet n5 n4 n3 n2 n1 n0.

Definition pad : ascii := "="%char.

(** [base64.b64encode(s)]: four characters for every three bytes; a last
    group of one or two bytes is filled with zero bits and padded. *)
Fixpoint b64encode (s : string) : string :=
  match s with
  | EmptyString => EmptyString
  | String B0 EmptyString =>
      String (b2a (first_of B0)) (String (b2a (second_of B0 zero))
        (String pad (String pad EmptyString)))
  | String B0 (String B1 EmptyString) =>
      String (b2a (first_of B0)) (String (b2a (second_of B0 B1))
        (String (b2a (third_of B1 zero)) (String pad EmptyString)))
  | String B0 (String B1 (String B2 rest)) =>
      String (b2a (first_of B0)) (String (b2a (second_of B0 B1))
        (String (b2a (third_of B1 B2)) (String (b2a (fourth_of B2)) (b64encode rest))))
  end.

(** Where the decoder stands within a group of four characters, with the
    bits it still holds. *)
Inductive quad :=
| Q0
| Q1 (x : sextet)
| Q2 (b3 b2 b1 b0 : bool)
| Q3 (b1 b0 : bool).

Definition quad_pos (q : quad) : nat :=
  match q with
  | Q0 => 0%nat
  | Q1 _ => 1%nat
  | Q2 _ _ _ _ => 2%nat
  | Q3 _ _ => 3%nat
  end.

Definition emit (c : ascii) (r : Res string) : Res string :=
  match r with
  | Ok s => Ok (String c s)
  | Raise e => Raise e
  end.

(** [binascii.a2b_base64] in its lenient mode: characters outside the
    alphabet are skipped; padding that completes a group ends the decoding;
    input that ends within a group is an error.  [pads] counts the padding
    seen since the last data character, [ndata] the data characters. *)
Fixpoint a2b_base64 (s : string) (q : quad) (pads ndata : nat) : Res string :=
  match s with
  | EmptyString =>
      match q with
      | Q0 => Ok EmptyString
      | Q1 _ =>
          Raise (ValueError
                   ("Invalid base64-encoded string: number of data characters ("
                    +:+ pretty ndata +:+ ") cannot be 1 more than a multiple of 4"))
      | _ => Raise (ValueError "Incorrect padding")
      end
  | String c s' =>
      if Ascii.eqb c pad then
        if (2 <=? quad_pos q)%nat then
          if (4 <=? quad_pos q + S pads)%nat then Ok EmptyString
          else a2b_base64 s' q (S pads) ndata
        else a2b_base64 s' q pads ndata
      else
        match a2b c with
        | None => a2b_base64 s' q pads ndata
        | Some (Sextet y5 y4 y3 y2 y1 y0 as y) =>
            match q with
            | Q0 => a2b_base64 s' (Q1 y) 0%nat (S ndata)
            | Q1 (Sextet x5 x4 x3 x2 x1 x0) =>
                emit (Ascii y4 y5 x0 x1 x2 x3 x4 x5)
                     (a2b_base64 s' (Q2 y3 y2 y1 y0) 0%nat (S ndata))
            | Q2 b3 b2 b1 b0 =>
                emit (Ascii y2 y3 y4 y5 b0 b1 b2 b3)
                     (a2b_base64 s' (Q3 y1 y0) 0%nat (S ndata))
            | Q3 b1 b0 =>
                emit (Ascii y0 y1 y2 y3 y4 y5 b0 b1)
                     (a2b_base64 s' Q0 0%nat (S ndata))
            end
        end
  end.

(** [base64.b64decode(s)]. *)
Definition b64decode (s : string) : Res string := a2b_base64 s Q0 0%nat 0%nat.

Definition byte (c : ascii) : N := N_of_ascii c.

Definition between (lo hi : N) (c : ascii) : bool :=
  ((lo <=? byte c) && (byte c <=? hi))%N.

(** Is the byte string well-formed UTF-8 (no overlong form, no surrogate,
    nothing above U+10FFFF)?  This is what the strict decoder accepts. *)
Fixpoint utf8_valid (s : string) : bool :=
  match s with
  | EmptyString => true
  | String a rest =>
      if between 0 127 a then utf8_valid rest
      else if between 194 223 a then
        match rest with
        | String b r => between 128 191 b && utf8_valid r
        | _ => false
        end
      else if between 224 239 a then
        match rest with
        | String b (String c r) =>
            (if (byte a =? 224)%N then between 160 191 b
             else if (byte a =? 237)%N then between 128 159 b
             else between 128 191 b)
            && between 128 191 c && utf8_valid r
        | _ => false
        end
      else if between 240 244 a then
        match rest with
        | String b (String c (String d r)) =>
            (if (byte a =? 240)%N then between 144 191 b
             else if (byte a =? 244)%N then between 128 143 b
             else between 128 191 b)
            && between 128 191 c && between 128 191 d && utf8_valid r
        | _ => false
        end
      else false
  end.

(** [bytes.decode("utf-8")]; the text of the [UnicodeDecodeError], which
    names the offending byte and its position, is shortened. *)
Definition utf8_decode (s : string) : Res string :=
  if utf8_valid s then Ok s
  else Raise (ValueError "'utf-8' codec can't decode bytes: invalid utf-8").

End Codec.

Module Runner.

(** ** NodeRunner/node_runner/task_manager/node.py: the task record *)

Inductive NodeStatus := QUEUED | RUNNING | DONE | ERROR.

(** The dictionary [retrun_hook] stores in [outputs]. *)
Record TaskOutputs := mkTaskOutputs {
  o_nodes : list string;
  o_outputs : PyDict;
  o_status : string;
  o_message : string
}.

(** The [Node] of the runner; [outputs] is [None] for the empty dictionary
    a task starts with. *)
Record Node := mkNode {
  node_name : string;
  runner_id : UUID;
  code_base64 : string;
  status : NodeStatus;
  inputs : PyDict;
  logs : list string;
  outputs : option TaskOutputs
}.

Definition set_code_base64 (c : string) (self : Node) : Node :=
  mkNode (node_name self) (runner_id self) c (status self) (inputs self) (logs self)
         (outputs self).
Definition set_status (st : NodeStatus) (self : Node) : Node :=
  mkNode (node_name self) (runner_id self) (code_base64 self) st (inputs self) (logs self)
         (outputs self).
Definition set_logs (l : list string) (self : Node) : Node :=
  mkNode (node_name self) (runner_id self) (code_base64 self) (status self) (inputs self) l
         (outputs self).
Definition set_outputs (o : TaskOutputs) (self : Node) : Node :=
  mkNode (node_name self) (runner_id self) (code_base64 self) (status self) (inputs self)
         (logs self) (Some o).

(** [Node.decode_code()]. *)
Definition decode_code (self : Node) : Res string :=
  try! raw <- Codec.b64decode (code_base64 self);
  Codec.utf8_decode raw.

(** [Node.encode_code(code)]. *)
Definition encode_code (code : string) (self : Node) : Node :=
  set_code_base64 (Codec.b64encode code) self.

(** [Node.pre_process()]: the node afterwards (or the exception, the node
    then being as before) and the keys requested from the Secret Manager. *)
Definition pre_process (get : string -> Secrets.SecretResponse) (self : Node)
  : Res Node * list string :=
  match decode_code self with
  | Raise e => (Raise e, [])
  | Ok decoded =>
      match Secrets.resolve_secrets get decoded with
      | (Ok resolved, fetched) => (Ok (encode_code resolved self), fetched)
      | (Raise e, fetched) => (Raise e, fetched)
      end
  end.

(** [Node.add_log(message)]. *)
Definition Node_add_log (message : string) (self : Node) : Node :=
  set_logs (logs self ++ [message])%list self.

(** ** NodeRunner/node_runner/npu_manager/session.py

    Times are floats in the source.  Here they are integers that count in
    the unit of the last place of those floats: time stamps of one era are
    multiples of it, and the difference of two of them is exact. *)

Record NpuMetrics := mkNpuMetrics {
  uptime : Z;
  successful_tasks : Z;
  failed_tasks : Z;
  queued_tasks : Z
}.

Record NpuStatus := mkNpuStatus {
  npu_id : UUID;
  address : string;
  npu_status : string;
  last_seen : Z;
  metrics : NpuMetrics
}.

(** The session: the Redis hashes [npu:{id}], the Redis set [npu:pool],
    [expiry_seconds], and the value of [time.time()] when the class
    [NpuStatus] was created, which is the default of its field [last_seen]. *)
Record NpuSession := mkNpuSession {
  hashes : gmap UUID NpuStatus;
  pool : gset UUID;
  expiry_seconds : Z;
  class_created_at : Z
}.

Definition set_redis (h : gmap UUID NpuStatus) (p : gset UUID) (s : NpuSession) : NpuSession :=
  mkNpuSession h p (expiry_seconds s) (class_created_at s).

(** [add_npu(npu_id, addr)]. *)
Definition add_npu (id : UUID) (addr : string) (s : NpuSession) : Res NpuStatus * NpuSession :=
  match hashes s !! id with
  | Some _ => (Raise (ValueError ("NPU " +:+ id +:+ " already exists")), s)
  | None =>
      let npu := mkNpuStatus id addr "idle" (class_created_at s) (mkNpuMetrics 0 0 0 0) in
      (Ok npu, set_redis (<[id := npu]> (hashes s)) ({[id]} ∪ pool s) s)
  end.

(** [update_metrics(npu_id, metrics)] at the time [now]. *)
Definition update_metrics (id : UUID) (m : NpuMetrics) (now : Z) (s : NpuSession)
  : Res NpuStatus * NpuSession :=
  match hashes s !! id with
  | None => (Raise (ValueError ("NPU " +:+ id +:+ " not found (maybe expired)")), s)
  | Some npu =>
      let npu' := mkNpuStatus (npu_id npu) (address npu) (npu_status npu) now m in
      (Ok npu', set_redis (<[id := npu']> (hashes s)) (pool s) s)
  end.

(** [get_all_npus()]: the members of the pool that have a hash. *)
Definition get_all_npus (s : NpuSession) : list NpuStatus :=
  omap (fun nid => hashes s !! nid) (elements (pool s)).

(** [get_npu_by_id(npu_id)]. *)
Definition get_npu_by_id (id : UUID) (s : NpuSession) : Res NpuStatus :=
  match hashes s !! id with
  | Some npu => Ok npu
  | None => Raise (ValueError ("NPU " +:+ id +:+ " not found"))
  end.

(** The body of the loop of [cleanup_inactive] for one member of the pool. *)
Definition cleanup_one (now : Z) (s : NpuSession) (nid : UUID) : NpuSession :=
  match hashes s !! nid with
  | None => s
  | Some npu =>
      if expiry_seconds s <? now - last_seen npu
      then set_redis (delete nid (hashes s)) (pool s ∖ {[nid]}) s
      else s
  end.

(** [cleanup_inactive()] at the time [now]. *)
Definition cleanup_inactive (now : Z) (s : NpuSession) : NpuSession :=
  fold_left (cleanup_one now) (elements (pool s)) s.

(** Has the NPU [id] been silent for longer than [expiry_seconds]? *)
Definition expired (now : Z) (s : NpuSession) (id : UUID) : bool :=
  match hashes s !! id with
  | Some npu => expiry_seconds s <? now - last_seen npu
  | None => false
  end.

(** The members of the pool are the NPUs that have a hash. *)
Definition pool_matches_hashes (s : NpuSession) : Prop := dom (hashes s) = pool s.

(** ** NodeRunner/node_runner/npu_manager/schduler.py *)

(** [get_next_npu()]; [draw] stands for the random number, the index drawn
    being [draw] modulo the number of NPUs. *)
Definition get_next_npu (draw : nat) (s : NpuSession) : option NpuStatus :=
  let npus := get_all_npus s in
  match npus with
  | [] => None
  | _ => npus !! (draw mod length npus)%nat
  end.

(** ** NodeRunner/node_runner/task_manager/manager.py *)

Abbreviation Table := (gmap UUID Node) (only parsing).

(** [Manager.get_npu()]: [NPU(None).check_connection()] reads
    [self.npu_status.address] before its [try]. *)
Definition get_npu (draw : nat) (s : NpuSession) : Res NpuStatus :=
  match get_next_npu draw s with
  | Some npu => Ok npu
  | None => Raise (AttributeError "'NoneType' object has no attribute 'address'")
  end.

Definition not_exits (runner_id : UUID) : Exn := ValueError (runner_id +:+ " is not exits").

(** [Manager.retrun_hook(runner_id, nodes, outputs, message, status)]. *)
Definition retrun_hook (runner_id : UUID) (nodes : list string) (outs : PyDict)
    (message status_ : string) (active_nodes : Table) : Res unit * Table :=
  match active_nodes !! runner_id with
  | None => (Raise (not_exits runner_id), active_nodes)
  | Some node =>
      let node := set_outputs (mkTaskOutputs nodes outs status_ message) node in
      let node :=
        if String.eqb status_ "ERROR" then set_status ERROR node
        else if String.eqb status_ "DONE" then set_status DONE node
        else node in
      (Ok tt, <[runner_id := node]> active_nodes)
  end.

(** [Manager.add_log(runner_id, log)]. *)
Definition add_log (runner_id : UUID) (log : string) (active_nodes : Table)
  : Res unit * Table :=
  match active_nodes !! runner_id with
  | None => (Raise (not_exits runner_id), active_nodes)
  | Some node => (Ok tt, <[runner_id := Node_add_log log node]> active_nodes)
  end.

(** [Manager.run_node], up to the dispatch: the task record is built and
    pre-processed, an NPU is chosen, and the record is entered in the table.
    Returns the NPU the code is posted to. *)
Definition run_node_register (get : string -> Secrets.SecretResponse)
    (session : NpuSession) (draw : nat)
    (name code : string) (inp : PyDict) (rid : UUID) (active_nodes : Table)
  : Res NpuStatus * Table :=
  let node := mkNode name rid code QUEUED inp [] None in
  match pre_process get node with
  | (Raise e, _) => (Raise e, active_nodes)
  | (Ok node, _) =>
      match get_npu draw session with
      | Raise e => (Raise e, active_nodes)
      | Ok npu => (Ok npu, <[rid := node]> active_nodes)
      end
  end.

(** [Manager.run_node], once [npu.run_node] has returned (its answer is not
    looked at): [self.__active_nodes[runner_id].status = NodeStatus.RUNNING].
    [None] stands for the [KeyError] of a record that is no longer there. *)
Definition run_node_dispatched (rid : UUID) (active_nodes : Table) : option Table :=
  match active_nodes !! rid with
  | Some node => Some (<[rid := set_status RUNNING node]> active_nodes)
  | None => None
  end.

(** What the wait of [run_node] finds: the status is not final yet, or the
    record is popped and returned, or there is no record ([KeyError]). *)
Inductive Wait :=
| Waiting
| Returned (final_node : Node) (active_nodes : Table)
| Missing.

(** [Manager.run_node], the end: [check_the_result] lets go when the status
    is [DONE] or [ERROR]; the record is then popped and returned. *)
Definition run_node_wait (rid : UUID) (active_nodes : Table) : Wait :=
  match active_nodes !! rid with
  | None => Missing
  | Some node =>
      match status node with
      | DONE | ERROR => Returned node (delete rid active_nodes)
      | _ => Waiting
      end
  end.

(** ** NodeRunner/node_runner/router/npu_route.py *)

(** The status of a handler that answers 201, or 500 on any exception. *)
Definition created_or_500 (r : Res unit) : Z :=
  match r with
  | Ok _ => 201
  | Raise _ => 500
  end.

(** [POST /npu/result/{runner_id}]; the body has passed the validation of
    [NodeResult], so its [status] is ["DONE"] or ["ERROR"]. *)
Definition return_node (runner_id : UUID) (nodes : list string) (outs : PyDict)
    (message status_ : string) (active_nodes : Table) : Z * Table :=
  let '(r, t) := retrun_hook runner_id nodes outs message status_ active_nodes in
  (created_or_500 r, t).

(** [POST /npu/log/{runner_id}]. *)
Definition add_logs (runner_id : UUID) (log : string) (active_nodes : Table) : Z * Table :=
  let '(r, t) := add_log runner_id log active_nodes in
  (created_or_500 r, t).

(** The value of a [NodeStatus]. *)
Definition NodeStatus_value (st : NodeStatus) : string :=
  match st with
  | QUEUED => "QUEUED"
  | RUNNING => "RUNNING"
  | DONE => "DONE"
  | ERROR => "ERROR"
  end.

(** The table after the log lines [msgs] were posted for [runner_id], one
    request each. *)
Definition post_logs (runner_id : UUID) (msgs : list string) (active_nodes : Table) : Table :=
  fold_left (fun t log => snd (add_logs runner_id log t)) msgs active_nodes.

(** A task with plain code, a session without NPU whose class [NpuStatus]
    was created at the time 100 and which lets an NPU be silent for 10, and
    that session with one NPU. *)
Module Scenario.

Definition code : string := "print('hi')".

Definition task : Node :=
  mkNode "node1" "runner-1" (Codec.b64encode code) QUEUED ∅ [] None.

Definition templated : Node :=
  mkNode "node1" "runner-1" (Codec.b64encode "KEY = '{{{secret::OPENAI_KEY}}}'")
         QUEUED ∅ [] None.

Definition session : NpuSession := mkNpuSession ∅ ∅ 10 100.

Definition npu1 : NpuStatus :=
  mkNpuStatus "npu-1" "http://npu-1:8000" "idle" 100 (mkNpuMetrics 0 0 0 0).

Definition with_npu : NpuSession := snd (add_npu "npu-1" "http://npu-1:8000" session).

Definition result : TaskOutputs := mkTaskOutputs ["node2"] ∅ "DONE" "ok".

End Scenario.

End Runner.

Module SecretManager.

(** ** SecretManager/main.py *)

(** The collection of documents [{key, value}].  Its writers are
    [update_one] with [upsert=True] and [delete_one], both filtered by
    [key], so it is a map from [key] to [value].  The database is taken to
    be reachable. *)
Abbreviation Collection := (gmap string string) (only parsing).




End SecretManager.

(** * Properties *)

Module ExecutorFacts.
Import Executor.

(** ** Node.run *)

Lemma run_failure_raises self inputs fresh reply logs f :
  run_try reply = (logs, inl f) ->
  run self inputs fresh reply = Raise (ValidationError "code").
Proof. intros H. unfold run. rewrite H. reflexivity. Qed.

Lemma run_success_returns self inputs fresh reply logs o :
  run_try reply = (logs, inr o) ->
  exists d, run self inputs fresh reply = Ok d
            /\ ned_status d = "success" /\ ned_outputs d = o.
Proof. intros H. unfold run. rewrite H. eexists. split; [reflexivity|]. split; reflexivity. Qed.

(** Whatever the runner does, [Node.run] never returns a value whose
    status is ["failed"]. *)
Lemma run_returns_only_success self inputs fresh reply d :
  run self inputs fresh reply = Ok d -> ned_status d = "success".
Proof.
  destruct (run_try reply) as [logs [f|o]] eqn:E.
  - rewrite (run_failure_raises _ _ _ _ _ _ E). discriminate.
  - destruct (run_success_returns self inputs fresh _ _ _ E) as (d' & -> & Hs & _).
    intros [= <-]. exact Hs.
Qed.

Lemma run_try_request_error msg : run_try (RequestError msg) = ([], inl (HttpxRequestError msg)).
Proof. reflexivity. Qed.

Lemma run_try_status_error status_code text json :
  is_success status_code = false ->
  run_try (Responded status_code text json) = ([], inl (HTTPStatusError status_code text)).
Proof. intros H. cbn. rewrite H. reflexivity. Qed.

(** ** Methods that can only stop a block *)

Create HintDb stops.

Lemma only_stops_ret {A} (a : A) : only_stops (ret a).
Proof. intros s. now left. Qed.

Lemma only_stops_raise {A} (e : Exn) : only_stops (@raise A e).
Proof. intros s. now left. Qed.

Lemma only_stops_lift {A} (r : Res A) : only_stops (lift r).
Proof. intros s. now left. Qed.

Lemma only_stops_get_self : only_stops get_self.
Proof. intros s. now left. Qed.

Lemma only_stops_call c : only_stops (call c).
Proof. intros s. now left. Qed.

Lemma only_stops_set_flow f : only_stops (set_flow f).
Proof. intros s. now left. Qed.

Lemma only_stops_set_node_exec_queue q : only_stops (set_node_exec_queue q).
Proof. intros s. now left. Qed.

Lemma only_stops_stop : only_stops stop.
Proof. intros s. now right. Qed.

Lemma only_stops_bind {A B} (m : Act A) (k : A -> Act B) :
  only_stops m -> (forall a, only_stops (k a)) -> only_stops (bind m k).
Proof.
  intros Hm Hk s. unfold bind. specialize (Hm s).
  destruct (m s) as [[a|e] s']; cbn in Hm; [|exact Hm].
  destruct (Hk a s') as [H|H]; [rewrite H; exact Hm | now right].
Qed.

Lemma only_stops_try_except {A} (m : Act A) (h : Exn -> Act A) :
  only_stops m -> (forall e, only_stops (h e)) -> only_stops (try_except m h).
Proof.
  intros Hm Hh s. unfold try_except. specialize (Hm s).
  destruct (m s) as [[a|e] s']; cbn in Hm; [exact Hm|].
  destruct (Hh e s') as [H|H]; [rewrite H; exact Hm | now right].
Qed.

#[local] Hint Resolve only_stops_ret only_stops_raise only_stops_lift
  only_stops_get_self only_stops_call only_stops_set_flow
  only_stops_set_node_exec_queue only_stops_stop : stops.

Lemma only_stops_exec : only_stops exec.
Proof.
  unfold exec. apply only_stops_bind; [auto with stops|].
  intros self. destruct (status self); auto with stops.
Qed.

Ltac stops_step :=
  first [ apply only_stops_exec
        | solve [auto with stops]
        | apply only_stops_bind; [|intros ?]
        | apply only_stops_try_except; [|intros ?] ].

Lemma only_stops_post_trace fid lvl n c st i l ns od os om outcome :
  only_stops (post_trace_request fid lvl n c st i l ns od os om outcome).
Proof.
  unfold post_trace_request. apply only_stops_bind; [auto with stops|].
  intros _. destruct outcome as [code json|msg]; [|auto with stops].
  destruct (is_http_error code); auto with stops.
Qed.

Lemma only_stops_enqueue_successors names outputs :
  only_stops (enqueue_successors names outputs).
Proof.
  induction names as [|n names IH]; cbn [enqueue_successors]; [auto with stops|].
  apply only_stops_bind; [auto with stops|]. intros self.
  destruct (nodes (flow self) !! n); [|auto with stops].
  apply only_stops_bind; [auto with stops|]. intros _. exact IH.
Qed.

Lemma only_stops_exec_hook result : only_stops (exec_hook result).
Proof.
  unfold exec_hook. apply only_stops_try_except; [|intros _; apply only_stops_stop].
  apply only_stops_bind; [apply only_stops_enqueue_successors|]. intros _.
  apply only_stops_bind; [auto with stops|]. intros self.
  destruct (node_exec_queue self) as [|[_node _inputs] rest]; [apply only_stops_stop|].
  repeat stops_step.
Qed.

Lemma only_stops_after_run curr_node curr_inp result trace :
  only_stops (after_run curr_node curr_inp result trace).
Proof.
  unfold after_run. apply only_stops_bind; [apply only_stops_exec_hook|]. intros _.
  apply only_stops_bind; [auto with stops|]. intros self.
  apply only_stops_bind; [apply only_stops_post_trace|]. intros _. auto with stops.
Qed.

Lemma only_stops_run_node fresh reply trace : only_stops (_run_node fresh reply trace).
Proof.
  unfold _run_node. apply only_stops_bind; [auto with stops|]. intros self.
  destruct (get_curr_node (flow self)) as [curr_node|]; [|apply only_stops_stop].
  apply only_stops_try_except; [|intros _; apply only_stops_stop].
  apply only_stops_bind; [auto with stops|]. intros result.
  apply only_stops_after_run.
Qed.

Lemma only_stops_keeps_STOP {A} (m : Act A) (self : FlowControlBlock) :
  only_stops m -> status self = STOP -> status (after m self) = STOP.
Proof.
  intros Hm Hs. unfold after. destruct (Hm (self, [])) as [H|H]; [|exact H].
  rewrite H. exact Hs.
Qed.

(** ** pause, start, stop, resumse *)

Lemma perform_pause self :
  perform pause self = (Ok tt, mkFCB (flow self) (flow_id self) (node_exec_queue self) PAUSE, []).
Proof. reflexivity. Qed.

Lemma perform_stop self :
  perform stop self = (Ok tt, mkFCB (flow self) (flow_id self) (node_exec_queue self) STOP, []).
Proof. reflexivity. Qed.

Lemma perform_start self :
  perform start self
  = (Ok tt, mkFCB (flow self) (flow_id self) (node_exec_queue self) START, [Submit]).
Proof. reflexivity. Qed.

(** [resumse] on a paused block: [START] and exactly one submitted step. *)
Lemma perform_resumse_paused self :
  status self = PAUSE ->
  perform resumse self
  = (Ok tt, mkFCB (flow self) (flow_id self) (node_exec_queue self) START, [Submit]).
Proof. intros H. unfold perform, resumse, bind, get_self. cbn. rewrite H. reflexivity. Qed.

(** [resumse] on any other block: nothing happens. *)
Lemma perform_resumse_not_paused self :
  status self <> PAUSE -> perform resumse self = (Ok tt, self, []).
Proof.
  intros H. unfold perform, resumse, bind, get_self. cbn.
  destruct (status self); try reflexivity. now destruct H.
Qed.

(** [resume_fcb] never reaches [resumse]: the attribute it asks for does not
    exist, whatever the block. *)
Lemma resume_fcb_raises fid q fcb :
  Blocks q !! fid = Some fcb ->
  resume_fcb fid q
  = (Raise (AttributeError "'FlowControlBlock' object has no attribute 'resume'"), q).
Proof. intros H. unfold resume_fcb. rewrite H. reflexivity. Qed.


(** ** The successor loop and exec_hook *)

(** The loop touches the pending queue only. *)
Lemma enqueue_successors_frame names outputs self calls :
  exists r q', enqueue_successors names outputs (self, calls)
               = (r, (mkFCB (flow self) (flow_id self) q' (status self), calls)).
Proof.
  revert self. induction names as [|n names IH]; intros self.
  - exists (Ok tt), (node_exec_queue self). destruct self; reflexivity.
  - cbn [enqueue_successors]. unfold bind at 1, get_self at 1. cbn [fst].
    destruct (nodes (flow self) !! n) as [nd|].
    + unfold bind at 1, set_node_exec_queue, update. cbn [fst snd].
      destruct (IH (mkFCB (flow self) (flow_id self)
                          (node_exec_queue self ++ [(nd, outputs)]) (status self)))
        as (r & q' & E).
      rewrite E. now exists r, q'.
    + eexists _, (node_exec_queue self). unfold raise. destruct self; reflexivity.
Qed.

(** Names that are keys of the flow are all appended, in order. *)
Lemma enqueue_successors_known names outputs self calls :
  Forall (fun n => is_Some (nodes (flow self) !! n)) names ->
  enqueue_successors names outputs (self, calls)
  = (Ok tt, (mkFCB (flow self) (flow_id self)
               (node_exec_queue self ++ successor_entries (flow self) outputs names)
               (status self), calls)).
Proof.
  revert self. induction names as [|n names IH]; intros self H.
  - cbn. rewrite app_nil_r. destruct self; reflexivity.
  - inversion H as [|? ? [nd Hn] Hrest]; subst.
    cbn [enqueue_successors]. unfold bind at 1, get_self at 1. cbn [fst].
    rewrite Hn. unfold bind at 1, set_node_exec_queue, update. cbn [fst snd].
    rewrite IH; [|exact Hrest]. cbn [flow flow_id node_exec_queue status].
    cbn [successor_entries]. rewrite Hn.
    rewrite <- app_assoc. reflexivity.
Qed.


(** [exec_hook] on a result that names no successor, with nothing pending. *)
Lemma exec_hook_no_successor result self calls :
  nodes_of (ned_outputs result) = [] ->
  node_exec_queue self = [] ->
  exec_hook result (self, calls)
  = (Ok tt, (mkFCB (flow self) (flow_id self) [] STOP, calls)).
Proof.
  intros Hn Hq. unfold exec_hook, try_except. rewrite Hn.
  cbn. rewrite Hq. cbn. rewrite Hq. reflexivity.
Qed.

(** [exec_hook] moves the pointer through [set_pointer] or not at all. *)
Lemma exec_hook_flow result self calls r s' :
  exec_hook result (self, calls) = (r, s') ->
  flow (fst s') = flow self
  \/ exists n inp, set_pointer (flow self) n inp = Ok (flow (fst s')).
Proof.
  intros H. unfold exec_hook, try_except, bind in H.
  destruct (enqueue_successors_frame (nodes_of (ned_outputs result))
              (outputs_of (ned_outputs result)) self calls) as (r0 & q' & E).
  rewrite E in H. destruct r0 as [[]|e]; cbn in H.
  - destruct q' as [|[n inp] rest]; cbn in H.
    + injection H as _ <-. now left.
    + destruct (set_pointer (flow self) n inp) as [f|e] eqn:Ep; cbn in H.
      * right. exists n, inp. rewrite Ep. f_equal.
        destruct (status self); cbn in H; injection H as _ <-; reflexivity.
      * injection H as _ <-. now left.
  - injection H as _ <-. now left.
Qed.

(** [exec_hook] catches everything it raises. *)
Lemma exec_hook_returns result s : exists s', exec_hook result s = (Ok tt, s').
Proof.
  unfold exec_hook, try_except.
  match goal with |- context [match ?m s with _ => _ end] => destruct (m s) as [[[]|e] s1] end;
    eauto.
Qed.

(** ** The trace post and a whole step *)

Lemma post_trace_request_spec fid lvl n c st i l ns od os om outcome s :
  post_trace_request fid lvl n c st i l ns od os om outcome s
  = (Ok (trace_answer outcome),
     (fst s, (snd s ++ [PostTrace fid lvl
                          (mkTracePayload n fid c st i l (mkNodeOutputs ns od os om))])%list)).
Proof.
  unfold post_trace_request, bind, call. destruct outcome as [code json|msg]; cbn;
    [destruct (is_http_error code)|]; reflexivity.
Qed.

(** After the dispatch has returned, a step is the hook followed by one
    trace post, whatever the trace service answers. *)
Lemma after_run_spec curr_node curr_inp result trace s s' :
  exec_hook result s = (Ok tt, s') ->
  after_run curr_node curr_inp result trace s
  = (Ok tt, (fst s', (snd s' ++ [trace_of curr_node curr_inp result (flow_id (fst s'))])%list)).
Proof.
  intros E. unfold after_run, bind at 1. rewrite E.
  unfold bind at 1, get_self at 1. unfold bind at 1.
  rewrite post_trace_request_spec. unfold ret, trace_of.
  destruct (ned_outputs result); reflexivity.
Qed.

Lemma after_run_trace_independent curr_node curr_inp result t1 t2 s :
  after_run curr_node curr_inp result t1 s = after_run curr_node curr_inp result t2 s.
Proof.
  destruct (exec_hook_returns result s) as (s' & E).
  now rewrite !(after_run_spec _ _ _ _ _ _ E).
Qed.

Lemma run_node_trace_independent fresh reply t1 t2 s :
  _run_node fresh reply t1 s = _run_node fresh reply t2 s.
Proof.
  unfold _run_node, try_except, bind, lift, get_self. cbn [fst].
  destruct (get_curr_node (flow (fst s))) as [curr_node|]; [|reflexivity].
  destruct (run curr_node (get_curr_inp (flow (fst s))) fresh reply) as [result|e];
    [|reflexivity].
  now rewrite (after_run_trace_independent _ _ _ t1 t2).
Qed.


(** A step moves the pointer through [set_pointer] or not at all. *)
Lemma run_node_flow fresh reply trace self :
  flow (after (_run_node fresh reply trace) self) = flow self
  \/ exists n inp,
       set_pointer (flow self) n inp = Ok (flow (after (_run_node fresh reply trace) self)).
Proof.
  unfold after, _run_node, try_except, bind, lift, get_self. cbn [fst].
  destruct (get_curr_node (flow self)) as [curr_node|]; [|now left].
  destruct (run curr_node (get_curr_inp (flow self)) fresh reply) as [result|e];
    [|now left].
  destruct (exec_hook_returns result (self, [])) as (s' & E).
  rewrite (after_run_spec _ _ _ _ _ _ E). cbn [fst snd].
  exact (exec_hook_flow _ _ _ _ _ E).
Qed.

(** A step whose dispatch raises: the block stops, and nothing is posted,
    saved or submitted. *)
Lemma run_node_dispatch_raises fresh reply trace self curr_node e :
  get_curr_node (flow self) = Some curr_node ->
  run curr_node (get_curr_inp (flow self)) fresh reply = Raise e ->
  perform (_run_node fresh reply trace) self
  = (Ok tt, mkFCB (flow self) (flow_id self) (node_exec_queue self) STOP, []).
Proof.
  intros Hc Hr. unfold perform, _run_node, try_except, bind, lift, get_self. cbn [fst].
  rewrite Hc, Hr. reflexivity.
Qed.

(** ** The pointer invariant *)

Lemma set_pointer_invariant f n inp f' :
  set_pointer f n inp = Ok f' -> pointer_invariant f'.
Proof.
  unfold set_pointer. destruct (nodes f !! name n) as [nd|] eqn:E; [|discriminate].
  intros [= <-] m [= <-]. cbn. rewrite E. eauto.
Qed.

Lemma Node_round_trip n : Node_of_dict (Node_to_dict n) = n.
Proof. now destruct n. Qed.

Lemma Flow_round_trip f : Flow_of_dict (Flow_to_dict f) = f.
Proof.
  destruct f as [ns inp cur]. unfold Flow_of_dict, Flow_to_dict. cbn. f_equal.
  - apply map_eq. intros i. rewrite !lookup_fmap.
    destruct (ns !! i) as [n|]; cbn; [now rewrite Node_round_trip | reflexivity].
  - destruct cur as [n|]; cbn; [now rewrite Node_round_trip | reflexivity].
Qed.

Lemma Flow_of_request_invariant req :
  pointer_invariant (Flow_of_request req)
  <-> is_Some (req_nodes req !! dto_name (req_curr_node req)).
Proof.
  unfold pointer_invariant, Flow_of_request. cbn. split.
  - intros H. specialize (H _ eq_refl). cbn in H.
    rewrite lookup_fmap in H. destruct H as [x Hx].
    destruct (req_nodes req !! dto_name (req_curr_node req)); [eauto | discriminate].
  - intros [d Hd] n [= <-]. cbn. rewrite lookup_fmap, Hd. cbn. eauto.
Qed.

(** ** Documents of the store *)

Lemma save_state_hook_keeps_documents fid' q fid :
  is_Some (collection q !! fid) -> is_Some (collection (save_state_hook fid' q) !! fid).
Proof.
  unfold save_state_hook. destruct (Blocks q !! fid'); [|done]. cbn.
  intros H. rewrite lookup_insert. case_decide; [eauto | done].
Qed.

Lemma deliver_all_keeps_documents self_id calls q fid :
  is_Some (collection q !! fid) -> is_Some (collection (deliver_all self_id calls q) !! fid).
Proof.
  unfold deliver_all. revert q. induction calls as [|c calls IH]; intros q H; [exact H|].
  cbn [fold_left]. apply IH. destruct c; cbn; [exact H | | exact H].
  now apply save_state_hook_keeps_documents.
Qed.

(** No step ever deletes a document: whatever a worker runs, a document
    that is in the store stays there. *)
Lemma worker_step_keeps_documents fresh reply trace q fid :
  is_Some (collection q !! fid) ->
  is_Some (collection (worker_step fresh reply trace q) !! fid).
Proof.
  intros H. unfold worker_step. destruct (threadpool q) as [|t rest]; [exact H|].
  cbn [Blocks set_threadpool detached].
  destruct (Blocks q !! t) as [fcb|].
  - unfold on_block. destruct (perform _ fcb) as [[r fcb'] calls]. cbn [snd].
    now apply deliver_all_keeps_documents.
  - destruct (detached q !! t) as [fcb|]; [|exact H].
    destruct (perform _ fcb) as [[r fcb'] calls].
    now apply deliver_all_keeps_documents.
Qed.

(** The explicit stop of the queue does delete the document. *)
Lemma stop_fcb_deletes_document fid q fcb :
  Blocks q !! fid = Some fcb ->
  collection (snd (stop_fcb fid q)) !! fid = None
  /\ Blocks (snd (stop_fcb fid q)) !! fid = None.
Proof.
  intros H. unfold stop_fcb. rewrite H. unfold on_block. rewrite perform_stop.
  cbn [deliver_all fold_left Blocks set_Blocks]. rewrite lookup_insert_eq.
  cbn. rewrite !lookup_delete_eq. done.
Qed.


(** ** The claims about the executor *)

(** The flow of the scenario run to its end: two traces, [start] then
    [node1], and [node1] was given the outputs of [start]. *)
Example scenario_traces :
  (fun t => (Executor.tp_node_name (snd t), Executor.tp_inputs (snd t)))
    <$> traces Scenario.finished
  = [("start", ∅); ("node1", Scenario.ab)].
Proof. vm_compute. reflexivity. Qed.


(** C1 (the code departs from it).  The flow of [test/flow_runner_test.py]
    run to its end: the block is in [STOP] and no step is pending, yet the
    document written by the checkpoint after [start] is still in the
    store, with the pointer at [node1].  An executor started again over
    that store recovers the flow and submits a step for [node1] once more. *)
Theorem C1_finished_flow_keeps_its_document :
  status <$> Blocks Scenario.finished !! Scenario.fid = Some STOP
  /\ threadpool Scenario.finished = []
  /\ d_curr_node <$> collection Scenario.finished !! Scenario.fid
     = Some (Some (mkNodeDict "node1" "bm9kZTE=" 2))
  /\ status <$> Blocks Scenario.rebooted !! Scenario.fid = Some START
  /\ threadpool Scenario.rebooted = [Scenario.fid].
Proof. vm_compute. repeat split; reflexivity. Qed.

(** C2 (the code departs from it).  [POST /fcb/{flow_id}/resume] on the
    paused block of the scenario: the handler answers 500 and the executor
    is as before (the block still in [PAUSE], no step submitted), because
    [resume_fcb] asks the block for a method [resume] while the block only
    has [resumse]. *)
Theorem C2_resume_request_leaves_block_paused :
  status <$> Blocks Scenario.paused !! Scenario.fid = Some PAUSE
  /\ http_resume_fcb Scenario.fid Scenario.paused = (500, Scenario.paused).
Proof.
  split; [vm_compute; reflexivity|].
  unfold http_resume_fcb.
  assert (exists fcb, Blocks Scenario.paused !! Scenario.fid = Some fcb) as [fcb H]
    by (vm_compute; eauto).
  now rewrite (resume_fcb_raises _ _ _ H).
Qed.

(** C3, as amended.  A step whose result names no successor and finds
    nothing pending (every failure result that [Node.run] builds has
    [nodes = []]) stops the block: status [STOP], pointer unchanged, nothing
    enqueued, no checkpoint, no further step, and exactly one trace, posted
    after the transition.  The statuses of the result play no part. *)
Theorem C3_step_without_successor_stops curr_node curr_inp result trace fcb :
  nodes_of (ned_outputs result) = [] ->
  node_exec_queue fcb = [] ->
  perform (after_run curr_node curr_inp result trace) fcb
  = (Ok tt, mkFCB (flow fcb) (flow_id fcb) [] STOP,
     [trace_of curr_node curr_inp result (flow_id fcb)]).
Proof.
  intros Hn Hq. unfold perform.
  rewrite (after_run_spec _ _ _ _ _ _ (exec_hook_no_successor _ _ [] Hn Hq)).
  reflexivity.
Qed.

Lemma C3_step_without_successor_stops_witness :
  perform (after_run (Node_of_DTO Scenario.start_dto) ∅
             (mkNodeExecutionData "start" "runner-1" "c3RhcnQ=" "failed" ∅ []
                (mkNodeOutputs [] ∅ "error" "timed out"))
             (TraceRequestFailed "refused")) Scenario.block
  = (Ok tt, Scenario.stopped_block,
     [trace_of (Node_of_DTO Scenario.start_dto) ∅
        (mkNodeExecutionData "start" "runner-1" "c3RhcnQ=" "failed" ∅ []
           (mkNodeOutputs [] ∅ "error" "timed out")) Scenario.fid]).
Proof.
  exact (C3_step_without_successor_stops (Node_of_DTO Scenario.start_dto) ∅
           (mkNodeExecutionData "start" "runner-1" "c3RhcnQ=" "failed" ∅ []
              (mkNodeOutputs [] ∅ "error" "timed out"))
           (TraceRequestFailed "refused") Scenario.block eq_refl eq_refl).
Defined.

(** C3 as stated fails: a step whose output status is ["error"], and a
    result whose status is ["failed"], both naming [node1], leave the block
    in [START] with the pointer on [node1] and one further step submitted. *)
Lemma C3_counterexample :
  (let m := _run_node "runner-1" Scenario.error_with_successor Scenario.saved in
   status (after m Scenario.block) <> STOP
   /\ name <$> curr_node (flow (after m Scenario.block)) = Some "node1"
   /\ submissions (calls_of m Scenario.block) = 1%nat)
  /\ (let m := exec_hook Scenario.failed_with_successor in
      status (after m Scenario.block) <> STOP
      /\ name <$> curr_node (flow (after m Scenario.block)) = Some "node1"
      /\ submissions (calls_of m Scenario.block) = 1%nat).
Proof. vm_compute. repeat split; (discriminate || reflexivity). Qed.

(** C4 (the code departs from it).  With the runner unreachable, timing
    out, or answering 503, [Node.run] raises a [ValidationError] for the
    field [code] instead of returning a value with status ["failed"]; the
    step that made the dispatch stops the block without posting a trace. *)
Theorem C4_transport_failure_makes_run_raise :
  let n := Node_of_DTO Scenario.start_dto in
  run n ∅ "runner-1" (RequestError "All connection attempts failed")
  = Raise (ValidationError "code")
  /\ run n ∅ "runner-1" (RequestError "timed out") = Raise (ValidationError "code")
  /\ run n ∅ "runner-1" (Responded 503 "Service Unavailable" None)
     = Raise (ValidationError "code")
  /\ perform (_run_node "runner-1" (RequestError "timed out") Scenario.saved) Scenario.block
     = (Ok tt, Scenario.stopped_block, []).
Proof. cbv zeta. repeat split; vm_compute; reflexivity. Qed.




(** C8, as amended.  A step event changes the status to [STOP] or not at
    all, [resumse] changes it only from [PAUSE] to [START], and [stop] sets
    [STOP]; so a block in [STOP] stays there under resume, stop and every
    step event.  [pause] and [start] assign [PAUSE] and [START] whatever
    the status was, also to a block in [STOP]. *)
Theorem C8_stop_is_kept_by_steps_and_resume :
  (forall fcb fresh reply trace,
     status (after (_run_node fresh reply trace) fcb) = status fcb
     \/ status (after (_run_node fresh reply trace) fcb) = STOP)
  /\ (forall fcb result,
        status (after (exec_hook result) fcb) = status fcb
        \/ status (after (exec_hook result) fcb) = STOP)
  /\ (forall fcb,
        status (after resumse fcb)
        = if BlockStatus_eqb (status fcb) PAUSE then START else status fcb)
  /\ (forall fcb, status (after stop fcb) = STOP)
  /\ (forall fcb, status (after pause fcb) = PAUSE)
  /\ (forall fcb, status (after start fcb) = START)
  /\ (forall fcb,
        status fcb = STOP ->
        status (after resumse fcb) = STOP
        /\ status (after stop fcb) = STOP
        /\ (forall result, status (after (exec_hook result) fcb) = STOP)
        /\ (forall fresh reply trace,
              status (after (_run_node fresh reply trace) fcb) = STOP)).
Proof.
  assert (forall fcb, status (after resumse fcb)
                      = if BlockStatus_eqb (status fcb) PAUSE then START else status fcb)
    as Hresumse.
  { intros fcb. unfold after, resumse, bind, get_self. cbn [fst].
    destruct (status fcb) eqn:E; cbn; try exact E; reflexivity. }
  split; [intros; apply (only_stops_run_node fresh reply trace (fcb, []))|].
  split; [intros; apply (only_stops_exec_hook result (fcb, []))|].
  split; [exact Hresumse|].
  do 3 (split; [reflexivity|]).
  intros fcb H. split; [rewrite Hresumse, H; reflexivity|].
  split; [reflexivity|]. split.
  - intros result. apply only_stops_keeps_STOP; [apply only_stops_exec_hook | exact H].
  - intros fresh reply trace.
    apply only_stops_keeps_STOP; [apply only_stops_run_node | exact H].
Qed.

Lemma C8_stop_is_kept_by_steps_and_resume_witness :
  status (after resumse Scenario.stopped_block) = STOP
  /\ status (after (_run_node "runner-3" (Scenario.done ["node1"] Scenario.ab) Scenario.saved)
               Scenario.stopped_block) = STOP.
Proof.
  destruct C8_stop_is_kept_by_steps_and_resume as (_ & _ & _ & _ & _ & _ & H).
  destruct (H Scenario.stopped_block eq_refl) as (Hr & _ & _ & Hs).
  split; [exact Hr | apply Hs].
Defined.

(** C8 as stated fails: [POST /fcb/{flow_id}/pause] sent for the finished
    flow of the scenario takes its block from [STOP] to [PAUSE], and [start]
    takes a stopped block to [START] and submits a step. *)
Lemma C8_counterexample :
  status <$> Blocks Scenario.finished !! Scenario.fid = Some STOP
  /\ fst (http_pause_fcb Scenario.fid Scenario.finished) = 200
  /\ status <$> Blocks (snd (http_pause_fcb Scenario.fid Scenario.finished)) !! Scenario.fid
     = Some PAUSE
  /\ status Scenario.stopped_block = STOP
  /\ status (after pause Scenario.stopped_block) = PAUSE
  /\ perform start Scenario.stopped_block = (Ok tt, Scenario.block, [Submit]).
Proof. vm_compute. repeat split; reflexivity. Qed.

(** C9, as amended.  [set_pointer], whenever it returns, yields a flow that
    satisfies the pointer invariant, and it is the only way a step moves the
    pointer, so a step keeps the invariant.  Recovery gives back the flow
    that was written, so it keeps the invariant too.  Construction from an
    [/fcb/add] request copies the pointer of the request unchecked: that
    flow satisfies the invariant exactly when the name of the request's
    [curr_node] is a key of its [nodes]. *)
Theorem C9_pointer_invariant_where_it_holds :
  (forall f n inp f', set_pointer f n inp = Ok f' -> pointer_invariant f')
  /\ (forall fcb fresh reply trace,
        pointer_invariant (flow fcb) ->
        pointer_invariant (flow (after (_run_node fresh reply trace) fcb)))
  /\ (forall f, pointer_invariant f -> pointer_invariant (Flow_of_dict (Flow_to_dict f)))
  /\ (forall req,
        pointer_invariant (Flow_of_request req)
        <-> is_Some (req_nodes req !! dto_name (req_curr_node req))).
Proof.
  split; [exact set_pointer_invariant|]. split; [|split].
  - intros fcb fresh reply trace H.
    destruct (run_node_flow fresh reply trace fcb) as [E|(n & inp & E)].
    + now rewrite E.
    + exact (set_pointer_invariant _ _ _ _ E).
  - intros f H. now rewrite Flow_round_trip.
  - exact Flow_of_request_invariant.
Qed.

Lemma C9_pointer_invariant_where_it_holds_witness :
  pointer_invariant
    (mkFlow (nodes (flow Scenario.block)) Scenario.ab (Some (Node_of_DTO Scenario.node1_dto)))
  /\ pointer_invariant (Flow_of_request Scenario.request).
Proof.
  split.
  - apply (proj1 C9_pointer_invariant_where_it_holds (flow Scenario.block)
             (Node_of_DTO Scenario.node1_dto) Scenario.ab).
    vm_compute. reflexivity.
  - apply (proj2 (proj2 (proj2 C9_pointer_invariant_where_it_holds)) Scenario.request).
    vm_compute. eauto.
Defined.

(** C9 as stated fails: the flow that the [/fcb/add] handler builds from a
    request whose [curr_node] is named ["ghost"], with ["start"] the only
    key of [nodes], has a pointer that names no key. *)
Lemma C9_counterexample :
  ~ pointer_invariant (Flow_of_request Scenario.dangling_request).
Proof.
  intros H. apply Flow_of_request_invariant in H. destruct H as [d Hd].
  vm_compute in Hd. discriminate.
Qed.

(** C10.  [post_trace_request] returns [None], and does not raise, when the
    request fails or is answered with an error status; [_run_node] makes
    nothing depend on what it returns: the block after a step, the calls
    the step makes (the checkpoint among them) and the whole executor after
    a worker has run the step are the same for any two outcomes of the trace
    post. *)
Theorem C10_trace_outcome_does_not_affect_flow :
  (forall fid lvl n c st i l ns od os om msg s,
     fst (post_trace_request fid lvl n c st i l ns od os om (TraceRequestFailed msg) s)
     = Ok None)
  /\ (forall fid lvl n c st i l ns od os om code json s,
        fst (post_trace_request fid lvl n c st i l ns od os om (TraceResponded code json) s)
        = Ok (if is_http_error code then None else json))
  /\ (forall fresh reply t1 t2 fcb,
        perform (_run_node fresh reply t1) fcb = perform (_run_node fresh reply t2) fcb)
  /\ (forall fresh reply t1 t2 q,
        worker_step fresh reply t1 q = worker_step fresh reply t2 q).
Proof.
  split; [|split; [|split]].
  - intros. now rewrite post_trace_request_spec.
  - intros. now rewrite post_trace_request_spec.
  - intros. unfold perform. now rewrite (run_node_trace_independent fresh reply t1 t2).
  - intros. unfold worker_step. destruct (threadpool q) as [|fid rest]; [reflexivity|].
    cbn [Blocks set_threadpool detached].
    destruct (Blocks q !! fid) as [fcb|].
    + unfold on_block, perform. now rewrite (run_node_trace_independent fresh reply t1 t2).
    + destruct (detached q !! fid) as [fcb|]; [|reflexivity].
      unfold perform. now rewrite (run_node_trace_independent fresh reply t1 t2).
Qed.


(** ** Saving and loading a block *)

Lemma BlockStatus_round_trip s : BlockStatus_of_value (BlockStatus_value s) = Ok s.
Proof. now destruct s. Qed.


Lemma queue_round_trip (q : list (Node * PyDict)) :
  List.map (fun e => (Node_of_dict (fst e), snd e))
    (List.map (fun e => (Node_to_dict (fst e), snd e)) q) = q.
Proof.
  induction q as [|[n inp] q IH]; [reflexivity|].
  cbn. rewrite Node_round_trip. now f_equal.
Qed.

(** Loading what [get_save_state] returned gives the block back: flow,
    flow id, pending queue and status, whatever block it is loaded into. *)
Theorem load_from_save_state_round_trip fcb self :
  perform (load_from_save_state (get_save_state fcb)) self = (Ok tt, fcb, []).
Proof.
  unfold perform, load_from_save_state, get_save_state, bind, lift,
    set_flow, set_flow_id, set_node_exec_queue, set_status, update.
  cbn. rewrite BlockStatus_round_trip, Flow_round_trip, queue_round_trip.
  now destruct fcb.
Qed.



(** ** The shape of exec_hook and of a step *)

(** [exec_hook] returns, keeps the flow id and the nodes of the flow, and
    makes no call, or the checkpoint, or the checkpoint and one submit. *)
Lemma exec_hook_shape result self calls :
  exists self' c,
    exec_hook result (self, calls) = (Ok tt, (self', (calls ++ c)%list))
    /\ flow_id self' = flow_id self
    /\ nodes (flow self') = nodes (flow self)
    /\ (c = [] \/ c = [SaveStateHook (flow_id self)]
        \/ c = [SaveStateHook (flow_id self); Submit]).
Proof.
  unfold exec_hook, try_except, bind.
  destruct (enqueue_successors_frame (nodes_of (ned_outputs result))
              (outputs_of (ned_outputs result)) self calls) as (r0 & q' & E).
  rewrite E. destruct r0 as [[]|e]; cbn.
  - destruct q' as [|[n inp] rest]; cbn.
    + eexists _, []. rewrite app_nil_r. repeat split; auto.
    + unfold set_pointer. destruct (nodes (flow self) !! name n); cbn.
      * destruct (status self); cbn.
        all: try (eexists _, [SaveStateHook (flow_id self); Submit];
                  rewrite <- app_assoc; repeat split; auto).
        all: eexists _, [SaveStateHook (flow_id self)]; repeat split; auto.
      * eexists _, []. rewrite app_nil_r. repeat split; auto.
  - eexists _, []. rewrite app_nil_r. repeat split; auto.
Qed.

(** With every named successor a key of the flow, [exec_hook] appends the
    successors behind what is pending, takes the head of the queue as the
    new pointer, checkpoints, and submits the next step unless the block is
    paused or stopped. *)
Theorem exec_hook_advances result fcb nd inp tail :
  Forall (fun n => is_Some (nodes (flow fcb) !! n)) (nodes_of (ned_outputs result)) ->
  (node_exec_queue fcb
   ++ successor_entries (flow fcb) (outputs_of (ned_outputs result))
        (nodes_of (ned_outputs result)))%list = (nd, inp) :: tail ->
  is_Some (nodes (flow fcb) !! name nd) ->
  perform (exec_hook result) fcb
  = (Ok tt,
     mkFCB (mkFlow (nodes (flow fcb)) inp (Some nd)) (flow_id fcb) tail (status fcb),
     advance_calls fcb).
Proof.
  intros Hk Hq [x Hx]. unfold perform, exec_hook, try_except, bind.
  rewrite (enqueue_successors_known _ _ _ _ Hk). cbn. rewrite Hq. cbn.
  unfold set_pointer. rewrite Hx. cbn. unfold advance_calls.
  destruct (status fcb); reflexivity.
Qed.

Lemma exec_hook_advances_witness :
  perform (exec_hook (mkNodeExecutionData "start" "runner-1" "c3RhcnQ=" "success" ∅ []
                        (mkNodeOutputs ["node1"] Scenario.ab "DONE" "run successfully")))
          Scenario.block
  = (Ok tt,
     mkFCB (mkFlow (nodes (flow Scenario.block)) Scenario.ab
              (Some (Node_of_DTO Scenario.node1_dto))) Scenario.fid [] START,
     [SaveStateHook Scenario.fid; Submit]).
Proof.
  apply (exec_hook_advances
           (mkNodeExecutionData "start" "runner-1" "c3RhcnQ=" "success" ∅ []
              (mkNodeOutputs ["node1"] Scenario.ab "DONE" "run successfully"))
           Scenario.block (Node_of_DTO Scenario.node1_dto) Scenario.ab []).
  - repeat constructor. vm_compute. eauto.
  - vm_compute. reflexivity.
  - vm_compute. eauto.
Defined.

(** When the node at the head of the queue carries a name that is no key of
    the flow, [set_pointer] refuses it: the block stops, the entry is
    gone from the queue, the pointer stays and nothing is checkpointed. *)
Theorem exec_hook_pointer_refused result fcb nd inp tail :
  Forall (fun n => is_Some (nodes (flow fcb) !! n)) (nodes_of (ned_outputs result)) ->
  (node_exec_queue fcb
   ++ successor_entries (flow fcb) (outputs_of (ned_outputs result))
        (nodes_of (ned_outputs result)))%list = (nd, inp) :: tail ->
  nodes (flow fcb) !! name nd = None ->
  perform (exec_hook result) fcb
  = (Ok tt, mkFCB (flow fcb) (flow_id fcb) tail STOP, []).
Proof.
  intros Hk Hq Hx. unfold perform, exec_hook, try_except, bind.
  rewrite (enqueue_successors_known _ _ _ _ Hk). cbn. rewrite Hq. cbn.
  unfold set_pointer. rewrite Hx. reflexivity.
Qed.


Lemma exec_hook_pointer_refused_witness :
  perform (exec_hook (mkNodeExecutionData "start" "runner-1" "c3RhcnQ=" "success" ∅ []
                        (mkNodeOutputs ["node1"] ∅ "DONE" "run successfully")))
          (mkFCB (Flow_of_request misnamed_request) Scenario.fid [] START)
  = (Ok tt, mkFCB (Flow_of_request misnamed_request) Scenario.fid [] STOP, []).
Proof.
  apply (exec_hook_pointer_refused
           (mkNodeExecutionData "start" "runner-1" "c3RhcnQ=" "success" ∅ []
              (mkNodeOutputs ["node1"] ∅ "DONE" "run successfully"))
           (mkFCB (Flow_of_request misnamed_request) Scenario.fid [] START)
           (mkNode "other" "b3RoZXI=" 2) ∅ []).
  - repeat constructor. vm_compute. eauto.
  - vm_compute. reflexivity.
  - vm_compute. reflexivity.
Defined.

(** A step in full: the block afterwards and its calls, in terms of
    [exec_hook]. *)
Lemma run_node_shape fresh reply trace self :
  exists self' c t,
    _run_node fresh reply trace (self, []) = (Ok tt, (self', (c ++ t)%list))
    /\ flow_id self' = flow_id self
    /\ nodes (flow self') = nodes (flow self)
    /\ (c = [] \/ c = [SaveStateHook (flow_id self)]
        \/ c = [SaveStateHook (flow_id self); Submit])
    /\ t = match get_curr_node (flow self) with
           | Some n =>
               match run n (get_curr_inp (flow self)) fresh reply with
               | Ok result => [trace_of n (get_curr_inp (flow self)) result (flow_id self)]
               | Raise _ => []
               end
           | None => []
           end.
Proof.
  unfold _run_node, try_except, bind, lift, get_self. cbn [fst].
  destruct (get_curr_node (flow self)) as [n|].
  - destruct (run n (get_curr_inp (flow self)) fresh reply) as [result|e].
    + destruct (exec_hook_shape result self []) as (self' & c & E & Hid & Hn & Hc).
      rewrite (after_run_spec _ _ _ _ _ _ E). cbn [fst snd].
      exists self', c, [trace_of n (get_curr_inp (flow self)) result (flow_id self)].
      rewrite Hid. repeat split; auto.
    + eexists _, [], []. repeat split; auto.
  - eexists _, [], []. repeat split; auto.
Qed.

(** Every step posts one trace when its dispatch returns and none
    otherwise.  The trace describes the node and the inputs the pointer was
    on when the step began, and its [runner_id] is the id of the flow, not
    the runner id of the dispatch. *)
Theorem run_node_posts_one_trace fresh reply trace fcb :
  List.filter is_post_trace (calls_of (_run_node fresh reply trace) fcb)
  = match get_curr_node (flow fcb) with
    | Some n =>
        match run n (get_curr_inp (flow fcb)) fresh reply with
        | Ok result =>
            [PostTrace (flow_id fcb) (flow_lvl n)
               (mkTracePayload (name n) (flow_id fcb) (code n) (ned_status result)
                  (get_curr_inp (flow fcb)) (ned_logs result) (ned_outputs result))]
        | Raise _ => []
        end
    | None => []
    end.
Proof.
  unfold calls_of.
  destruct (run_node_shape fresh reply trace fcb) as (self' & c & t & E & _ & _ & Hc & Ht).
  rewrite E. cbn [snd]. rewrite List.filter_app.
  assert (List.filter is_post_trace c = []) as ->
    by (destruct Hc as [->|[->| ->]]; reflexivity).
  rewrite Ht. cbn [app].
  destruct (get_curr_node (flow fcb)) as [n|]; [|reflexivity].
  destruct (run n (get_curr_inp (flow fcb)) fresh reply); reflexivity.
Qed.

(** A step never changes the nodes of the flow nor the flow id. *)
Theorem run_node_keeps_nodes fresh reply trace fcb :
  nodes (flow (after (_run_node fresh reply trace) fcb)) = nodes (flow fcb)
  /\ flow_id (after (_run_node fresh reply trace) fcb) = flow_id fcb.
Proof.
  unfold after.
  destruct (run_node_shape fresh reply trace fcb) as (self' & c & t & E & Hid & Hn & _).
  rewrite E. now split.
Qed.

(** ** The pool *)

Lemma deliver_all_app self_id c1 c2 q :
  deliver_all self_id (c1 ++ c2) q = deliver_all self_id c2 (deliver_all self_id c1 q).
Proof. unfold deliver_all. apply fold_left_app. Qed.

Lemma deliver_all_threadpool self_id calls q :
  threadpool (deliver_all self_id calls q)
  = (threadpool q ++ List.map (fun _ => self_id) (List.filter is_submit calls))%list.
Proof.
  unfold deliver_all. revert q. induction calls as [|c calls IH]; intros q.
  - cbn. now rewrite app_nil_r.
  - cbn [fold_left]. rewrite IH. destruct c; cbn.
    + now rewrite <- app_assoc.
    + unfold save_state_hook. now destruct (Blocks q !! fid).
    + reflexivity.
Qed.

(** A step submits at most one step, and only for its own block: the pool
    after a worker has run the oldest task is the rest of the pool, with
    that task's block appended once or not at all. *)
Theorem worker_step_submits_own_block_once fresh reply trace q fid rest :
  threadpool q = fid :: rest ->
  threadpool (worker_step fresh reply trace q) = rest
  \/ threadpool (worker_step fresh reply trace q) = (rest ++ [fid])%list.
Proof.
  intros Hp. unfold worker_step. rewrite Hp. cbn [Blocks set_threadpool detached].
  assert (forall fcb,
            let '(_, fcb', calls) := perform (_run_node fresh reply trace) fcb in
            forall q', threadpool q' = rest ->
            threadpool (deliver_all fid calls q') = rest
            \/ threadpool (deliver_all fid calls q') = (rest ++ [fid])%list) as Hstep.
  { intros fcb. unfold perform.
    destruct (run_node_shape fresh reply trace fcb)
      as (self' & c & t & E & _ & _ & Hc & Ht).
    rewrite E. intros q' Hq'. rewrite deliver_all_threadpool, Hq', List.filter_app.
    assert (List.filter is_submit t = []) as ->.
    { rewrite Ht. destruct (get_curr_node (flow fcb)) as [n|]; [|reflexivity].
      destruct (run n (get_curr_inp (flow fcb)) fresh reply); reflexivity. }
    rewrite app_nil_r.
    destruct Hc as [->|[->| ->]]; cbn; rewrite ?app_nil_r; auto. }
  destruct (Blocks q !! fid) as [fcb|].
  - unfold on_block. specialize (Hstep fcb).
    destruct (perform (_run_node fresh reply trace) fcb) as [[r fcb'] calls].
    cbn [snd]. now apply Hstep.
  - destruct (detached q !! fid) as [fcb|]; [|now left].
    specialize (Hstep fcb).
    destruct (perform (_run_node fresh reply trace) fcb) as [[r fcb'] calls].
    now apply Hstep.
Qed.

Lemma worker_step_submits_own_block_once_witness :
  threadpool (worker_step "runner-1" (Scenario.done ["node1"] Scenario.ab) Scenario.saved
                Scenario.added) = []
  \/ threadpool (worker_step "runner-1" (Scenario.done ["node1"] Scenario.ab) Scenario.saved
                   Scenario.added) = [Scenario.fid].
Proof.
  apply (worker_step_submits_own_block_once "runner-1" (Scenario.done ["node1"] Scenario.ab)
           Scenario.saved Scenario.added Scenario.fid []).
  vm_compute. reflexivity.
Defined.


(** ** Flows that are not registered *)

Lemma deliver_Blocks self_id c q : Blocks (deliver self_id c q) = Blocks q.
Proof.
  destruct c; cbn; try reflexivity.
  unfold save_state_hook. now destruct (Blocks q !! fid).
Qed.

Lemma deliver_all_Blocks self_id calls q :
  Blocks (deliver_all self_id calls q) = Blocks q.
Proof.
  unfold deliver_all. revert q. induction calls as [|c calls IH]; intros q; [reflexivity|].
  cbn [fold_left]. rewrite IH. apply deliver_Blocks.
Qed.

Lemma deliver_all_absent self_id calls q fid :
  Blocks q !! fid = None -> collection q !! fid = None ->
  collection (deliver_all self_id calls q) !! fid = None.
Proof.
  unfold deliver_all. revert q. induction calls as [|c calls IH]; intros q Hb Hc; [exact Hc|].
  cbn [fold_left]. apply IH.
  - now rewrite deliver_Blocks.
  - destruct c as [|x|]; cbn; try exact Hc.
    unfold save_state_hook. destruct (Blocks q !! x) eqn:E; [|exact Hc].
    cbn. rewrite lookup_insert_ne; [exact Hc|]. intros ->. congruence.
Qed.

Lemma worker_step_absent fresh reply trace q fid :
  Blocks q !! fid = None -> collection q !! fid = None ->
  Blocks (worker_step fresh reply trace q) !! fid = None
  /\ collection (worker_step fresh reply trace q) !! fid = None.
Proof.
  intros Hb Hc. unfold worker_step. destruct (threadpool q) as [|t rest]; [now split|].
  cbn [Blocks set_threadpool detached].
  destruct (Blocks q !! t) as [fcb|] eqn:Et.
  - assert (t <> fid) as Hne by (intros ->; congruence).
    unfold on_block. destruct (perform _ fcb) as [[r fcb'] calls]. cbn [snd].
    assert (Blocks (set_Blocks (<[t:=fcb']> (Blocks (set_threadpool rest q)))
                      (set_threadpool rest q)) !! fid = None) as Hb'
      by (cbn; now rewrite lookup_insert_ne).
    split; [now rewrite deliver_all_Blocks | now apply deliver_all_absent].
  - destruct (detached q !! t) as [fcb|]; [|now split].
    destruct (perform _ fcb) as [[r fcb'] calls].
    split; [now rewrite deliver_all_Blocks | now apply deliver_all_absent].
Qed.

Lemma run_workers_absent inputs q fid :
  Blocks q !! fid = None -> collection q !! fid = None ->
  Blocks (run_workers inputs q) !! fid = None
  /\ collection (run_workers inputs q) !! fid = None.
Proof.
  unfold run_workers. revert q. induction inputs as [|i inputs IH]; intros q Hb Hc.
  - now split.
  - cbn [fold_left].
    destruct (worker_step_absent (fst (fst i)) (snd (fst i)) (snd i) q fid Hb Hc).
    now apply IH.
Qed.

(** After [stop_fcb] the flow stays gone: whatever steps the workers still
    run, also steps that were already submitted for the stopped block, its
    document does not come back and the flow is not registered again. *)
Theorem stop_fcb_is_final fid q fcb inputs :
  Blocks q !! fid = Some fcb ->
  collection (run_workers inputs (snd (stop_fcb fid q))) !! fid = None
  /\ Blocks (run_workers inputs (snd (stop_fcb fid q))) !! fid = None.
Proof.
  intros H. destruct (stop_fcb_deletes_document fid q fcb H) as [Hc Hb].
  destruct (run_workers_absent inputs _ fid Hb Hc). now split.
Qed.

Lemma stop_fcb_is_final_witness :
  collection (run_workers [("runner-2", Scenario.done [] ∅, Scenario.saved)]
                (snd (stop_fcb Scenario.fid Scenario.after_start))) !! Scenario.fid = None
  /\ Blocks (run_workers [("runner-2", Scenario.done [] ∅, Scenario.saved)]
               (snd (stop_fcb Scenario.fid Scenario.after_start))) !! Scenario.fid = None.
Proof.
  assert (exists fcb, Blocks Scenario.after_start !! Scenario.fid = Some fcb) as [fcb H]
    by (vm_compute; eauto).
  exact (stop_fcb_is_final Scenario.fid Scenario.after_start fcb
           [("runner-2", Scenario.done [] ∅, Scenario.saved)] H).
Defined.

(** ** Recovery *)






(** ** The handlers *)

(** [POST /fcb/{flow_id}/resume] never succeeds and never changes the
    executor: 404 for an unknown flow, 500 for a registered one. *)
Theorem http_resume_fcb_always_fails fid q :
  http_resume_fcb fid q
  = (match Blocks q !! fid with Some _ => 500 | None => 404 end, q).
Proof.
  unfold http_resume_fcb. destruct (Blocks q !! fid) as [fcb|] eqn:E.
  - now rewrite (resume_fcb_raises _ _ _ E).
  - unfold resume_fcb. now rewrite E.
Qed.


End ExecutorFacts.

Module TraceMonitorFacts.
Import TraceMonitor.






Example two_traces_of_one_flow :
  sequences_of Scenario.fid
    (collection (serve [mkTraceRequest (Scenario.payload "start") Scenario.fid 1 "trace-1";
                        mkTraceRequest (Scenario.payload "other") "another-flow" 1 "trace-2";
                        mkTraceRequest (Scenario.payload "node1") Scenario.fid 2 "trace-3"]
                   (boot [])))
  = [1; 2].
Proof. vm_compute. reflexivity. Qed.





(** ** Reading and deleting traces *)




Lemma stored_as_length base rs : length (stored_as base rs) = length rs.
Proof.
  revert base. induction rs as [|r rs IH]; intros base; [reflexivity|].
  cbn. f_equal. apply IH.
Qed.





Lemma delete_one_unknown trace_id l :
  trace_id ∉ (_id <$> l) -> delete_one trace_id l = (O, l).
Proof.
  induction l as [|r l IH]; [reflexivity|]. cbn [fmap list_fmap delete_one].
  rewrite not_elem_of_cons. intros [Hne Hl].
  destruct (String.eqb_spec (_id r) trace_id) as [E|_]; [now destruct Hne|].
  now rewrite IH.
Qed.

Lemma delete_one_known trace_id l :
  trace_id ∈ (_id <$> l) ->
  exists l', delete_one trace_id l = (1%nat, l') /\ S (length l') = length l.
Proof.
  induction l as [|r l IH]; cbn [fmap list_fmap delete_one].
  - intros H. now apply elem_of_nil in H.
  - rewrite elem_of_cons. intros H.
    destruct (String.eqb_spec (_id r) trace_id) as [E|Hne]; [now exists l|].
    destruct H as [->|H]; [now destruct Hne|].
    destruct (IH H) as (l' & -> & Hl). exists (r :: l'). split; [reflexivity|].
    cbn. now rewrite Hl.
Qed.

(** [DELETE /trace/{trace_id}] answers 404 and changes nothing when no
    stored trace has the id; otherwise it answers 200 and the store holds
    one trace less. *)
Theorem delete_trace_spec trace_id s :
  (trace_id ∉ (_id <$> collection s) -> delete_trace trace_id s = (404, s))
  /\ (trace_id ∈ (_id <$> collection s) ->
      fst (delete_trace trace_id s) = 200
      /\ S (length (collection (snd (delete_trace trace_id s)))) = length (collection s)).
Proof.
  unfold delete_trace. split; intros H.
  - rewrite (delete_one_unknown _ _ H). cbn. now destruct s.
  - destruct (delete_one_known _ _ H) as (l' & -> & Hl). now cbn.
Qed.

Lemma delete_trace_spec_witness :
  delete_trace "trace-9" Scenario.first_run = (404, Scenario.first_run)
  /\ fst (delete_trace "trace-1" Scenario.first_run) = 200.
Proof.
  split.
  - apply (proj1 (delete_trace_spec "trace-9" Scenario.first_run)).
    cbn. rewrite not_elem_of_cons. split; [discriminate | apply not_elem_of_nil].
  - apply (proj2 (delete_trace_spec "trace-1" Scenario.first_run)).
    cbn. apply list_elem_of_here.
Defined.


End TraceMonitorFacts.

Module SecretsFacts.
Import Secrets.

(** ** Strings *)






Lemma lazy_key_eq s :
  lazy_key s
  = match strip_prefix closing s with
    | Some rest => Some (EmptyString, rest)
    | None =>
        match s with
        | EmptyString => None
        | String c s' =>
            if Ascii.eqb c newline then None
            else match lazy_key s' with
                 | Some (k, rest) => Some (String c k, rest)
                 | None => None
                 end
        end
    end.
Proof. destruct s; reflexivity. Qed.



(** ** The fuel of findall and replace is enough *)

Lemma strip_prefix_length p s r :
  strip_prefix p s = Some r ->
  String.length s = (String.length p + String.length r)%nat.
Proof.
  revert s. induction p as [|c p IH]; intros s H.
  - cbn in H. now injection H as ->.
  - destruct s as [|x s]; [discriminate|]. cbn [strip_prefix] in H.
    destruct (Ascii.eqb c x); [|discriminate]. cbn. f_equal. now apply IH.
Qed.

Lemma lazy_key_length s key rest :
  lazy_key s = Some (key, rest) ->
  String.length s = (String.length key + 3 + String.length rest)%nat.
Proof.
  revert key. induction s as [|c s IH]; intros key H; rewrite lazy_key_eq in H.
  - cbn in H. discriminate.
  - destruct (strip_prefix closing (String c s)) as [r|] eqn:E.
    + injection H as <- <-. apply strip_prefix_length in E. exact E.
    + destruct (Ascii.eqb c newline); [discriminate|].
      destruct (lazy_key s) as [[k r]|]; [|discriminate].
      injection H as <- <-. cbn. f_equal. now apply IH.
Qed.

(** Any fuel of at least the length of the text gives the same matches. *)
Lemma findall_fuel_enough n m s :
  (String.length s <= n)%nat -> (String.length s <= m)%nat ->
  findall_fuel n s = findall_fuel m s.
Proof.
  revert m s. induction n as [|n IH]; intros m s Hn Hm.
  - destruct s; [|cbn in Hn; lia]. now destruct m.
  - destruct s as [|c s]; [now destruct m|].
    destruct m as [|m]; [cbn in Hm; lia|].
    cbn [findall_fuel]. cbn [String.length] in Hn, Hm.
    destruct (strip_prefix opening (String c s)) as [body|] eqn:E; [|apply IH; lia].
    destruct (lazy_key body) as [[key rest]|] eqn:L; [|apply IH; lia].
    apply strip_prefix_length in E. apply lazy_key_length in L.
    cbn [String.length] in E. f_equal. apply IH; lia.
Qed.

(** Any fuel of at least the length of the text gives the same result. *)
Lemma replace_fuel_enough n m c old new s :
  (String.length s <= n)%nat -> (String.length s <= m)%nat ->
  replace_fuel n (String c old) new s = replace_fuel m (String c old) new s.
Proof.
  revert m s. induction n as [|n IH]; intros m s Hn Hm.
  - destruct s; [|cbn in Hn; lia]. now destruct m.
  - destruct s as [|x s]; [now destruct m|].
    destruct m as [|m]; [cbn in Hm; lia|].
    cbn [String.length] in Hn, Hm.
    change (replace_fuel (S n) (String c old) new (String x s))
      with (match strip_prefix (String c old) (String x s) with
            | Some rest => new +:+ replace_fuel n (String c old) new rest
            | None => String x (replace_fuel n (String c old) new s)
            end).
    change (replace_fuel (S m) (String c old) new (String x s))
      with (match strip_prefix (String c old) (String x s) with
            | Some rest => new +:+ replace_fuel m (String c old) new rest
            | None => String x (replace_fuel m (String c old) new s)
            end).
    destruct (strip_prefix (String c old) (String x s)) as [rest|] eqn:E.
    + apply strip_prefix_length in E. cbn [String.length] in E.
      f_equal. apply IH; lia.
    + f_equal. apply IH; lia.
Qed.

(** ** findall *)

Lemma findall_fuel_no_opening fuel s :
  has_char "{" s = false -> findall_fuel fuel s = [].
Proof.
  revert s. induction fuel as [|fuel IH]; intros s H; [reflexivity|].
  destruct s as [|c s]; [reflexivity|]. cbn [has_char] in H.
  apply orb_false_iff in H as [H1 H2].
  cbn [findall_fuel]. unfold opening. cbn [strip_prefix]. rewrite H1. now apply IH.
Qed.




(** ** replace *)






(** ** resolve_secrets *)

Lemma usable_value (get : string -> SecretResponse) key :
  usable (get key) = true ->
  resp_status (get key) = 200
  /\ exists c v, resp_value (get key) = Some (String c v).
Proof.
  unfold usable. intros H. apply andb_true_iff in H as [H1 H2].
  split; [now apply Z.eqb_eq|].
  destruct (resp_value (get key)) as [[|c v]|]; try discriminate. eauto.
Qed.

(** With usable answers the loop is one [replace] per key, and it requests
    the keys it was given, in order. *)
Lemma resolve_loop_ok get keys text fetched :
  forallb (fun key => usable (get key)) keys = true ->
  resolve_loop get keys text fetched
  = (Ok (replace_each get keys text), (fetched ++ keys)%list).
Proof.
  revert text fetched. induction keys as [|key keys IH]; intros text fetched H.
  - cbn. now rewrite app_nil_r.
  - cbn [forallb] in H. apply andb_true_iff in H as [Hk H].
    destruct (usable_value _ _ Hk) as (Hs & c & v & Hv).
    cbn [resolve_loop]. rewrite Hs, Hv. cbn [Z.eqb Pos.eqb negb].
    rewrite IH by exact H. rewrite <- app_assoc. cbn [app].
    unfold replace_each. cbn [fold_left]. unfold value_of. rewrite Hv. reflexivity.
Qed.


Lemma resolve_secrets_ok get text :
  forallb (fun key => usable (get key)) (findall text) = true ->
  resolve_secrets get text
  = (Ok (replace_each get (findall text) text), findall text).
Proof.
  intros H. unfold resolve_secrets. destruct (findall text) as [|key keys] eqn:E.
  - reflexivity.
  - now rewrite resolve_loop_ok.
Qed.


(** A text without a placeholder comes back as it is, and nothing is
    requested. *)
Lemma resolve_secrets_no_placeholder get text :
  findall text = [] -> resolve_secrets get text = (Ok text, []).
Proof. intros H. unfold resolve_secrets. now rewrite H. Qed.

Example findall_three :
  findall "a = '{{{secret::OPENAI_KEY}}}'; b = {{{secret::B}}} {{{secret::c}}}}"
  = ["OPENAI_KEY"; "B"; "c"].
Proof. reflexivity. Qed.

Example findall_stops_at_newline :
  findall ("{{{secret::A" +:+ String newline "}}} {{{secret::B}}}") = ["B"].
Proof. reflexivity. Qed.

Example replace_all_occurrences : replace "ab" "X" "abcabab" = "XcXX".
Proof. reflexivity. Qed.

Example replace_does_not_rescan : replace "a" "aa" "aba" = "aabaa".
Proof. reflexivity. Qed.

Example resolve_openai_key :
  resolve_secrets (manager Scenario.store) "KEY = '{{{secret::OPENAI_KEY}}}'"
  = (Ok "KEY = 'sk-xyz'", ["OPENAI_KEY"]).
Proof. vm_compute. reflexivity. Qed.

Example resolve_missing_key :
  resolve_secrets (manager Scenario.store) "{{{secret::A}}} {{{secret::nope}}} {{{secret::B}}}"
  = (Raise (ValueError "Failed to fetch secret: nope"), ["A"; "nope"]).
Proof. vm_compute. reflexivity. Qed.






(** ** Failing and trivial resolutions *)

(** A text without an opening brace has no placeholder: it comes back as
    it is and the Secret Manager is not asked anything. *)
Theorem resolve_secrets_plain_text get text :
  has_char "{" text = false -> resolve_secrets get text = (Ok text, []).
Proof.
  intros H. apply resolve_secrets_no_placeholder.
  unfold findall. now apply findall_fuel_no_opening.
Qed.

Lemma resolve_secrets_plain_text_witness :
  resolve_secrets (manager Scenario.store) "print('hello')" = (Ok "print('hello')", []).
Proof.
  exact (resolve_secrets_plain_text (manager Scenario.store) "print('hello')" eq_refl).
Defined.

Lemma resolve_loop_first_failure get good bad rest text fetched :
  forallb (fun key => usable (get key)) good = true ->
  usable (get bad) = false ->
  resolve_loop get (good ++ bad :: rest) text fetched
  = (Raise (ValueError (refusal (get bad) bad)), (fetched ++ good ++ [bad])%list).
Proof.
  revert text fetched. induction good as [|key good IH]; intros text fetched Hg Hb.
  - cbn [app resolve_loop]. unfold usable in Hb. unfold refusal.
    destruct (resp_status (get bad) =? 200); cbn [negb]; [|reflexivity].
    destruct (resp_value (get bad)) as [[|c v]|]; try reflexivity. discriminate.
  - cbn [forallb] in Hg. apply andb_true_iff in Hg as [Hk Hg].
    destruct (usable_value _ _ Hk) as (Hs & c & v & Hv).
    cbn [app resolve_loop]. rewrite Hs, Hv. cbn [Z.eqb Pos.eqb negb].
    rewrite IH by assumption. now rewrite <- app_assoc.
Qed.


(** The first key whose answer is not a 200 with a non-empty value aborts
    the resolution with a [ValueError] that names it; the keys before it
    have been requested, the keys after it are not. *)
Theorem resolve_secrets_first_failure get text good bad rest :
  findall text = (good ++ bad :: rest)%list ->
  forallb (fun key => usable (get key)) good = true ->
  usable (get bad) = false ->
  resolve_secrets get text
  = (Raise (ValueError (refusal (get bad) bad)), (good ++ [bad])%list).
Proof.
  intros Hf Hg Hb. unfold resolve_secrets. rewrite Hf.
  pose proof (resolve_loop_first_failure get good bad rest text [] Hg Hb) as H.
  destruct good; exact H.
Qed.

Lemma resolve_secrets_first_failure_witness :
  resolve_secrets (manager Scenario.store)
    "{{{secret::A}}} {{{secret::nope}}} {{{secret::B}}}"
  = (Raise (ValueError "Failed to fetch secret: nope"), ["A"; "nope"]).
Proof.
  exact (resolve_secrets_first_failure (manager Scenario.store)
           "{{{secret::A}}} {{{secret::nope}}} {{{secret::B}}}"
           ["A"] "nope" ["B"] eq_refl eq_refl eq_refl).
Defined.


End SecretsFacts.

Module SecretManagerFacts.
Import Secrets SecretManager SecretsFacts.





End SecretManagerFacts.

Module CodecFacts.
Import Codec.

(** ** Base64: decoding an encoding *)

Lemma a2b_b2a x : a2b (b2a x) = Some x.
Proof. destruct x as [[] [] [] [] [] []]; reflexivity. Qed.

Lemma b2a_not_pad x : Ascii.eqb (b2a x) pad = false.
Proof. destruct x as [[] [] [] [] [] []]; reflexivity. Qed.

Lemma a2b_base64_data x s q pads ndata :
  a2b_base64 (String (b2a x) s) q pads ndata
  = match x with
    | Sextet y5 y4 y3 y2 y1 y0 =>
        match q with
        | Q0 => a2b_base64 s (Q1 x) 0%nat (S ndata)
        | Q1 (Sextet x5 x4 x3 x2 x1 x0) =>
            emit (Ascii y4 y5 x0 x1 x2 x3 x4 x5)
                 (a2b_base64 s (Q2 y3 y2 y1 y0) 0%nat (S ndata))
        | Q2 b3 b2 b1 b0 =>
            emit (Ascii y2 y3 y4 y5 b0 b1 b2 b3)
                 (a2b_base64 s (Q3 y1 y0) 0%nat (S ndata))
        | Q3 b1 b0 =>
            emit (Ascii y0 y1 y2 y3 y4 y5 b0 b1)
                 (a2b_base64 s Q0 0%nat (S ndata))
        end
    end.
Proof.
  cbn [a2b_base64]. rewrite b2a_not_pad, a2b_b2a. destruct x. reflexivity.
Qed.

Lemma a2b_base64_b64encode n : forall s, (String.length s <= n)%nat -> forall ndata,
  a2b_base64 (b64encode s) Q0 0%nat ndata = Ok s.
Proof.
  induction n as [|n IH]; intros t Hl ndata.
  - destruct t; [reflexivity | cbn in Hl; lia].
  - destruct t as [|[l0 l1 l2 l3 l4 l5 l6 l7] [|[m0 m1 m2 m3 m4 m5 m6 m7]
                     [|[n0 n1 n2 n3 n4 n5 n6 n7] rest]]].
    + reflexivity.
    + cbn [b64encode first_of second_of zero]. rewrite !a2b_base64_data. reflexivity.
    + cbn [b64encode first_of second_of third_of zero]. rewrite !a2b_base64_data. reflexivity.
    + cbn [b64encode first_of second_of third_of fourth_of]. rewrite !a2b_base64_data.
      rewrite IH by (cbn [String.length] in Hl; lia). reflexivity.
Qed.

Lemma b64decode_b64encode s : b64decode (b64encode s) = Ok s.
Proof. now apply (a2b_base64_b64encode (String.length s)). Qed.

End CodecFacts.

Module RunnerFacts.
Import Codec Secrets Runner CodecFacts SecretsFacts.

(** ** The code of a task *)

Lemma decode_encoded text self :
  code_base64 self = b64encode text -> utf8_valid text = true ->
  decode_code self = Ok text.
Proof.
  intros Hc Hu. unfold decode_code. rewrite Hc, b64decode_b64encode. cbn.
  unfold utf8_decode. now rewrite Hu.
Qed.

(** [decode_code] gives back the text that [encode_code] stored, for every
    text that is well-formed UTF-8. *)
Theorem decode_code_after_encode_code text self :
  utf8_valid text = true ->
  decode_code (encode_code text self) = Ok text.
Proof. intros Hu. now apply decode_encoded. Qed.

Lemma decode_code_after_encode_code_witness :
  decode_code (encode_code "x = 'café'" Runner.Scenario.task) = Ok "x = 'café'".
Proof.
  exact (decode_code_after_encode_code "x = 'café'" Runner.Scenario.task eq_refl).
Defined.

(** When every secret that the code names is available, [pre_process]
    replaces the code by the Base64 of the resolved text and touches nothing
    else of the task; the keys it requests are the placeholders of the
    decoded code, in their order. *)
Theorem pre_process_resolves get text self :
  code_base64 self = b64encode text ->
  utf8_valid text = true ->
  forallb (fun key => usable (get key)) (findall text) = true ->
  pre_process get self
  = (Ok (set_code_base64 (b64encode (replace_each get (findall text) text)) self),
     findall text).
Proof.
  intros Hc Hu Hk. unfold pre_process.
  rewrite (decode_encoded text self Hc Hu), (resolve_secrets_ok get text Hk).
  reflexivity.
Qed.

Lemma pre_process_resolves_witness :
  pre_process (manager Secrets.Scenario.store) Runner.Scenario.templated
  = (Ok (set_code_base64 (b64encode "KEY = 'sk-xyz'") Runner.Scenario.templated),
     ["OPENAI_KEY"]).
Proof.
  exact (pre_process_resolves (manager Secrets.Scenario.store)
           "KEY = '{{{secret::OPENAI_KEY}}}'" Runner.Scenario.templated
           eq_refl eq_refl eq_refl).
Defined.

(** ** The session *)

Lemma cleanup_one_hashes now s a id :
  hashes (cleanup_one now s a) !! id
  = if decide (a = id) then (if expired now s id then None else hashes s !! id)
    else hashes s !! id.
Proof.
  unfold cleanup_one, expired. destruct (decide (a = id)) as [->|Hne].
  - destruct (hashes s !! id) as [npu|] eqn:E; [|now rewrite E].
    destruct (expiry_seconds s <? now - last_seen npu); cbn.
    + apply lookup_delete_eq.
    + exact E.
  - destruct (hashes s !! a) as [npu|]; [|reflexivity].
    destruct (expiry_seconds s <? now - last_seen npu); cbn; [|reflexivity].
    now apply lookup_delete_ne.
Qed.

Lemma cleanup_one_pool now s a id :
  id ∈ pool (cleanup_one now s a) <-> id ∈ pool s /\ ~ (a = id /\ expired now s id = true).
Proof.
  unfold cleanup_one, expired. destruct (hashes s !! a) as [npu|] eqn:E.
  - destruct (expiry_seconds s <? now - last_seen npu) eqn:Ex; cbn.
    + rewrite elem_of_difference, elem_of_singleton. split.
      * intros [Hin Hne]. split; [exact Hin|]. intros [-> _]. now apply Hne.
      * intros [Hin Hn]. split; [exact Hin|]. intros ->. apply Hn. split; [reflexivity|].
        now rewrite E.
    + split; [|tauto]. intros Hin. split; [exact Hin|]. intros [<- H].
      rewrite E, Ex in H. discriminate.
  - split; [|tauto]. intros Hin. split; [exact Hin|]. intros [<- H].
    rewrite E in H. discriminate.
Qed.

Lemma cleanup_one_expiry now s a : expiry_seconds (cleanup_one now s a) = expiry_seconds s.
Proof.
  unfold cleanup_one. destruct (hashes s !! a) as [npu|]; [|reflexivity].
  now destruct (expiry_seconds s <? now - last_seen npu).
Qed.

Lemma cleanup_one_created now s a :
  class_created_at (cleanup_one now s a) = class_created_at s.
Proof.
  unfold cleanup_one. destruct (hashes s !! a) as [npu|]; [|reflexivity].
  now destruct (expiry_seconds s <? now - last_seen npu).
Qed.

Lemma cleanup_fold now (l : list UUID) s :
  let s' := fold_left (cleanup_one now) l s in
  expiry_seconds s' = expiry_seconds s
  /\ class_created_at s' = class_created_at s
  /\ (forall id, hashes s' !! id
                 = if decide (id ∈ l) then (if expired now s id then None else hashes s !! id)
                   else hashes s !! id)
  /\ (forall id, id ∈ pool s' <-> id ∈ pool s /\ ~ (id ∈ l /\ expired now s id = true)).
Proof.
  cbn zeta. revert s. induction l as [|a l IH]; intros s.
  - cbn [fold_left]. split; [reflexivity|]. split; [reflexivity|]. split.
    + intros id. rewrite decide_False; [reflexivity | apply not_elem_of_nil].
    + intros id. split; [|tauto]. intros Hin. split; [exact Hin|].
      intros [Hl _]. now apply not_elem_of_nil in Hl.
  - cbn [fold_left]. destruct (IH (cleanup_one now s a)) as (He & Hc & Hh & Hp).
    rewrite He, Hc, cleanup_one_expiry, cleanup_one_created.
    assert (forall id, expired now (cleanup_one now s a) id
                       = if decide (a = id) then false else expired now s id) as Hexp.
    { intros id. unfold expired at 1. rewrite cleanup_one_hashes, cleanup_one_expiry.
      destruct (decide (a = id)) as [->|Hne]; [|reflexivity].
      destruct (expired now s id) eqn:Ex; [reflexivity|]. exact Ex. }
    split; [reflexivity|]. split; [reflexivity|]. split.
    + intros id. rewrite Hh, Hexp, cleanup_one_hashes.
      destruct (decide (a = id)) as [->|Hne].
      * rewrite (decide_True (P := id ∈ id :: l)) by apply list_elem_of_here.
        destruct (decide (id ∈ l)); reflexivity.
      * destruct (decide (id ∈ l)) as [Hin|Hnin].
        -- rewrite (decide_True (P := id ∈ a :: l)) by now apply list_elem_of_further.
           reflexivity.
        -- rewrite (decide_False (P := id ∈ a :: l)); [reflexivity|].
           rewrite elem_of_cons. intros [->|H]; [now apply Hne | now apply Hnin].
    + intros id. rewrite Hp, Hexp, cleanup_one_pool, elem_of_cons.
      destruct (decide (a = id)) as [->|Hne].
      * split.
        -- intros [[Hin Hn] _]. split; [exact Hin|]. intros [_ Hx]. apply Hn. now split.
        -- intros [Hin Hn]. split; [split; [exact Hin|]|].
           ++ intros [_ Hx]. apply Hn. split; [now left | exact Hx].
           ++ intros [_ Hf]. discriminate.
      * split.
        -- intros [[Hin _] Hn]. split; [exact Hin|]. intros [[->|Hl] Hx]; [now apply Hne|].
           apply Hn. now split.
        -- intros [Hin Hn]. split; [split; [exact Hin|]|].
           ++ intros [-> _]. now apply Hne.
           ++ intros [Hl Hx]. apply Hn. split; [now right | exact Hx].
Qed.

Lemma cleanup_inactive_at now s id :
  let s' := cleanup_inactive now s in
  hashes s' !! id
  = (if decide (id ∈ pool s) then (if expired now s id then None else hashes s !! id)
     else hashes s !! id)
  /\ (id ∈ pool s' <-> id ∈ pool s /\ expired now s id = false).
Proof.
  cbn zeta. unfold cleanup_inactive.
  destruct (cleanup_fold now (elements (pool s)) s) as (_ & _ & Hh & Hp). split.
  - rewrite Hh. destruct (decide (id ∈ pool s)) as [Hin|Hnin].
    + rewrite decide_True by now apply elem_of_elements. reflexivity.
    + rewrite decide_False; [reflexivity|]. now rewrite elem_of_elements.
  - rewrite Hp, elem_of_elements. split.
    + intros [Hin Hn]. split; [exact Hin|]. destruct (expired now s id); [|reflexivity].
      exfalso. apply Hn. now split.
    + intros [Hin Hx]. split; [exact Hin|]. intros [_ H]. congruence.
Qed.

(** [cleanup_inactive] removes, hash and pool entry together, exactly the
    members of the pool that have been silent for longer than
    [expiry_seconds]; every other hash and pool entry is left as it is. *)
Theorem cleanup_inactive_spec now s id :
  let s' := cleanup_inactive now s in
  hashes s' !! id
  = (if decide (id ∈ pool s) then (if expired now s id then None else hashes s !! id)
     else hashes s !! id)
  /\ (id ∈ pool s' <-> id ∈ pool s /\ expired now s id = false).
Proof. exact (cleanup_inactive_at now s id). Qed.

Lemma add_npu_fresh id addr s :
  hashes s !! id = None ->
  add_npu id addr s
  = (Ok (mkNpuStatus id addr "idle" (class_created_at s) (mkNpuMetrics 0 0 0 0)),
     set_redis (<[id := mkNpuStatus id addr "idle" (class_created_at s) (mkNpuMetrics 0 0 0 0)]>
                  (hashes s)) ({[id]} ∪ pool s) s).
Proof. intros H. unfold add_npu. now rewrite H. Qed.

(** An id without a hash is registered as an idle NPU with zero metrics
    that [get_npu_by_id] then returns; registering the id again, at whatever
    address, raises a [ValueError] and leaves the session as it is. *)
Theorem add_npu_once id addr addr' s :
  hashes s !! id = None ->
  let npu := mkNpuStatus id addr "idle" (class_created_at s) (mkNpuMetrics 0 0 0 0) in
  let s1 := snd (add_npu id addr s) in
  fst (add_npu id addr s) = Ok npu
  /\ get_npu_by_id id s1 = Ok npu
  /\ id ∈ pool s1
  /\ add_npu id addr' s1 = (Raise (ValueError ("NPU " +:+ id +:+ " already exists")), s1).
Proof.
  intros H. cbn zeta. rewrite (add_npu_fresh id addr s H). cbn [fst snd].
  split; [reflexivity|]. split; [|split].
  - unfold get_npu_by_id. cbn. now rewrite lookup_insert_eq.
  - cbn. apply elem_of_union_l. now apply elem_of_singleton.
  - unfold add_npu at 1. cbn. now rewrite lookup_insert_eq.
Qed.

Lemma add_npu_once_witness :
  add_npu "npu-1" "http://elsewhere:8000" Runner.Scenario.with_npu
  = (Raise (ValueError "NPU npu-1 already exists"), Runner.Scenario.with_npu).
Proof.
  exact (proj2 (proj2 (proj2
           (add_npu_once "npu-1" "http://npu-1:8000" "http://elsewhere:8000"
              Runner.Scenario.session eq_refl)))).
Defined.

(** The members of the pool and the NPUs that have a hash stay the same
    set under registration, heartbeat and clean-up. *)
Theorem pool_matches_hashes_kept s :
  pool_matches_hashes s ->
  (forall id addr, pool_matches_hashes (snd (add_npu id addr s)))
  /\ (forall id m now, pool_matches_hashes (snd (update_metrics id m now s)))
  /\ (forall now, pool_matches_hashes (cleanup_inactive now s)).
Proof.
  unfold pool_matches_hashes. intros H. split; [|split].
  - intros id addr. unfold add_npu. destruct (hashes s !! id); [exact H|].
    cbn. now rewrite dom_insert_L, H.
  - intros id m now. unfold update_metrics. destruct (hashes s !! id) as [npu|] eqn:E; [|exact H].
    cbn. rewrite dom_insert_L, H. apply elem_of_dom_2 in E. rewrite H in E.
    apply subseteq_union_1_L. now apply singleton_subseteq_l.
  - intros now. apply set_eq. intros id.
    destruct (cleanup_inactive_at now s id) as [Hh Hp].
    assert (id ∈ pool s <-> is_Some (hashes s !! id)) as Hin
      by (rewrite <- H; apply elem_of_dom).
    etransitivity; [apply elem_of_dom|]. etransitivity; [|symmetry; exact Hp].
    rewrite Hh. destruct (decide (id ∈ pool s)) as [Hi|Hni].
    + destruct (expired now s id).
      * split; [intros [x Hx]; discriminate | intros [_ Hx]; discriminate].
      * tauto.
    + tauto.
Qed.

Lemma pool_matches_hashes_kept_witness :
  pool_matches_hashes (cleanup_inactive 105 Runner.Scenario.with_npu).
Proof.
  assert (pool_matches_hashes Runner.Scenario.session) as H0 by apply dom_empty_L.
  pose proof (proj1 (pool_matches_hashes_kept Runner.Scenario.session H0)
                "npu-1" "http://npu-1:8000") as H1.
  exact (proj2 (proj2 (pool_matches_hashes_kept _ H1)) 105).
Defined.

(** A new NPU is stored with the [last_seen] that the class [NpuStatus] got
    as its default when it was created.  Once the process is older than
    [expiry_seconds], the clean-up that follows a registration removes the
    NPU again, and its next heartbeat is refused. *)
Theorem late_registration_is_cleaned_up id addr now m s :
  hashes s !! id = None ->
  expiry_seconds s < now - class_created_at s ->
  let s' := cleanup_inactive now (snd (add_npu id addr s)) in
  hashes s' !! id = None
  /\ (id ∉ pool s')
  /\ update_metrics id m now s'
     = (Raise (ValueError ("NPU " +:+ id +:+ " not found (maybe expired)")), s').
Proof.
  intros H Hlate. cbn zeta. rewrite (add_npu_fresh id addr s H). cbn [snd].
  set (s1 := set_redis _ _ s).
  destruct (cleanup_inactive_at now s1 id) as [Hh Hp].
  assert (expired now s1 id = true) as Hx.
  { unfold expired, s1. cbn. rewrite lookup_insert_eq. cbn. now apply Z.ltb_lt. }
  assert (id ∈ pool s1) as Hin
    by (unfold s1; cbn; apply elem_of_union_l; now apply elem_of_singleton).
  rewrite decide_True, Hx in Hh by exact Hin.
  split; [exact Hh|]. split.
  - rewrite Hp, Hx. intros [_ Hf]. discriminate.
  - unfold update_metrics. now rewrite Hh.
Qed.

Lemma late_registration_is_cleaned_up_witness :
  hashes (cleanup_inactive 200 Runner.Scenario.with_npu) !! "npu-1" = None.
Proof.
  apply (late_registration_is_cleaned_up "npu-1" "http://npu-1:8000" 200
           (mkNpuMetrics 0 0 0 0) Runner.Scenario.session).
  - reflexivity.
  - cbn. lia.
Defined.

(** A heartbeat stores the metrics and the time at which it came and
    leaves id, address and status alone; a clean-up no later than
    [expiry_seconds] after it keeps the NPU. *)
Theorem heartbeat_keeps_npu id m t now s npu :
  hashes s !! id = Some npu ->
  now - t <= expiry_seconds s ->
  let s' := cleanup_inactive now (snd (update_metrics id m t s)) in
  hashes s' !! id = Some (mkNpuStatus (npu_id npu) (address npu) (npu_status npu) t m)
  /\ (id ∈ pool s' <-> id ∈ pool s).
Proof.
  intros H Hfresh. cbn zeta. unfold update_metrics. rewrite H. cbn [snd].
  set (s1 := set_redis _ _ s).
  destruct (cleanup_inactive_at now s1 id) as [Hh Hp].
  assert (expired now s1 id = false) as Hx.
  { unfold expired, s1. cbn. rewrite lookup_insert_eq. cbn. apply Z.ltb_ge. exact Hfresh. }
  rewrite Hx in Hh, Hp. split.
  - rewrite Hh. unfold s1. cbn. rewrite lookup_insert_eq. now destruct (decide _).
  - rewrite Hp. unfold s1. cbn. tauto.
Qed.

Lemma heartbeat_keeps_npu_witness :
  hashes (cleanup_inactive 210
            (snd (update_metrics "npu-1" (mkNpuMetrics 60 3 0 1) 200
                    Runner.Scenario.with_npu))) !! "npu-1"
  = Some (mkNpuStatus "npu-1" "http://npu-1:8000" "idle" 200 (mkNpuMetrics 60 3 0 1)).
Proof.
  apply (heartbeat_keeps_npu "npu-1" (mkNpuMetrics 60 3 0 1) 200 210
           Runner.Scenario.with_npu Runner.Scenario.npu1).
  - reflexivity.
  - vm_compute. discriminate.
Defined.

(** ** The scheduler *)

Lemma elem_of_get_all_npus npu s :
  npu ∈ get_all_npus s <-> exists id, id ∈ pool s /\ hashes s !! id = Some npu.
Proof.
  unfold get_all_npus. rewrite list_elem_of_omap. split.
  - intros (id & Hin & Hh). exists id. split; [now apply elem_of_elements | exact Hh].
  - intros (id & Hin & Hh). exists id. split; [now apply elem_of_elements | exact Hh].
Qed.

Lemma get_next_npu_some draw s npu :
  get_next_npu draw s = Some npu -> npu ∈ get_all_npus s.
Proof.
  unfold get_next_npu. destruct (get_all_npus s) as [|a l] eqn:E; [discriminate|].
  intros H. now apply list_elem_of_lookup_2 in H.
Qed.

Lemma get_next_npu_none draw s :
  get_next_npu draw s = None -> get_all_npus s = [].
Proof.
  unfold get_next_npu. destruct (get_all_npus s) as [|a l] eqn:E; [reflexivity|].
  intros H. apply lookup_ge_None in H.
  pose proof (Nat.mod_upper_bound draw (length (a :: l))) as Hb.
  cbn [length] in *. lia.
Qed.

(** Whatever number is drawn, [get_npu] returns an NPU of the pool that has
    a hash when there is one, and raises an [AttributeError] exactly when
    there is none. *)
Theorem get_npu_spec draw s :
  match get_npu draw s with
  | Ok npu => exists id, id ∈ pool s /\ hashes s !! id = Some npu
  | Raise e =>
      e = AttributeError "'NoneType' object has no attribute 'address'"
      /\ forall id, id ∈ pool s -> hashes s !! id = None
  end.
Proof.
  unfold get_npu. destruct (get_next_npu draw s) as [npu|] eqn:E.
  - apply get_next_npu_some in E. now apply elem_of_get_all_npus.
  - split; [reflexivity|]. intros id Hin. apply get_next_npu_none in E.
    destruct (hashes s !! id) as [npu|] eqn:Hh; [|reflexivity].
    assert (npu ∈ get_all_npus s) as Hm by (apply elem_of_get_all_npus; eauto).
    rewrite E in Hm. now apply not_elem_of_nil in Hm.
Qed.

(** ** The task manager *)

Lemma retrun_hook_known rid nodes outs message st node t :
  t !! rid = Some node ->
  st = DONE \/ st = ERROR ->
  retrun_hook rid nodes outs message (NodeStatus_value st) t
  = (Ok tt, <[rid := set_status st
                       (set_outputs (mkTaskOutputs nodes outs (NodeStatus_value st) message) node)]> t).
Proof.
  intros H Hst. unfold retrun_hook. rewrite H. now destruct Hst as [-> | ->].
Qed.

Lemma post_logs_known rid msgs : forall t node,
  t !! rid = Some node ->
  post_logs rid msgs t = <[rid := set_logs (logs node ++ msgs)%list node]> t.
Proof.
  unfold post_logs. induction msgs as [|m msgs IH]; intros t node H.
  - cbn [fold_left]. rewrite app_nil_r. symmetry. apply insert_id.
    rewrite H. now destruct node.
  - cbn [fold_left]. unfold add_logs at 2, add_log. rewrite H. cbn [snd].
    rewrite (IH _ (Node_add_log m node)) by apply lookup_insert_eq.
    rewrite insert_insert_eq. unfold Node_add_log, set_logs. cbn.
    now rewrite <- app_assoc.
Qed.

(** While no NPU is registered [run_node] raises and enters nothing in the
    table: the error of the pre-processing if that fails, an
    [AttributeError] otherwise. *)
Theorem run_node_without_npu get session draw name code inp rid active :
  (forall id, id ∈ pool session -> hashes session !! id = None) ->
  run_node_register get session draw name code inp rid active
  = (Raise (match fst (pre_process get (mkNode name rid code QUEUED inp [] None)) with
            | Raise e => e
            | Ok _ => AttributeError "'NoneType' object has no attribute 'address'"
            end), active).
Proof.
  intros Hnone. unfold run_node_register.
  destruct (pre_process get _) as [[node|e] fetched]; [|reflexivity]. cbn [fst].
  unfold get_npu. destruct (get_next_npu draw session) as [npu|] eqn:E; [|reflexivity].
  apply get_next_npu_some, elem_of_get_all_npus in E as (id & Hin & Hh).
  rewrite (Hnone id Hin) in Hh. discriminate.
Qed.

Lemma run_node_without_npu_witness :
  run_node_register (manager Secrets.Scenario.store) Runner.Scenario.session 0
    "node1" (code_base64 Runner.Scenario.task) ∅ "runner-1" ∅
  = (Raise (AttributeError "'NoneType' object has no attribute 'address'"), ∅).
Proof.
  apply (run_node_without_npu (manager Secrets.Scenario.store) Runner.Scenario.session 0
           "node1" (code_base64 Runner.Scenario.task) ∅ "runner-1" ∅).
  intros id H. now apply not_elem_of_empty in H.
Defined.

(** A task whose id was free, once registered and dispatched, then logged
    to and answered, is returned with its name, inputs and pre-processed
    code, the log lines in the order of their arrival, and the outputs and
    status of the answer.  The table is then as it was before, and a second
    answer gets a 500. *)
Theorem run_node_lifecycle get session draw name code inp rid active
    npu t1 t2 msgs nodes outs message st :
  active !! rid = None ->
  run_node_register get session draw name code inp rid active = (Ok npu, t1) ->
  run_node_dispatched rid t1 = Some t2 ->
  st = DONE \/ st = ERROR ->
  exists code' t4,
    fst (pre_process get (mkNode name rid code QUEUED inp [] None))
    = Ok (mkNode name rid code' QUEUED inp [] None)
    /\ return_node rid nodes outs message (NodeStatus_value st) (post_logs rid msgs t2)
       = (201, t4)
    /\ run_node_wait rid t4
       = Returned (mkNode name rid code' st inp msgs
                     (Some (mkTaskOutputs nodes outs (NodeStatus_value st) message)))
                  active
    /\ return_node rid nodes outs message (NodeStatus_value st) active = (500, active).
Proof.
  intros Hfree Hreg Hdis Hst. unfold run_node_register in Hreg.
  destruct (pre_process get _) as [[node|e] fetched] eqn:Hpre; [|discriminate].
  destruct (get_npu draw session) as [npu'|e]; [|discriminate].
  injection Hreg as _ <-.
  assert (exists code', node = mkNode name rid code' QUEUED inp [] None) as [code' ->].
  { unfold pre_process in Hpre. destruct (decode_code _); [|discriminate].
    destruct (resolve_secrets get _) as [[resolved|e] f]; [|discriminate].
    injection Hpre as <- _. now eexists. }
  unfold run_node_dispatched in Hdis. rewrite lookup_insert_eq in Hdis.
  injection Hdis as <-. rewrite insert_insert_eq.
  rewrite (post_logs_known rid msgs _ _ (lookup_insert_eq _ _ _)), insert_insert_eq.
  exists code'. eexists. split; [reflexivity|]. split; [|split].
  - unfold return_node. rewrite (retrun_hook_known _ _ _ _ st _ _ (lookup_insert_eq _ _ _) Hst).
    reflexivity.
  - unfold run_node_wait. rewrite lookup_insert_eq, insert_insert_eq.
    rewrite delete_insert_eq, (delete_id _ _ Hfree).
    now destruct Hst as [-> | ->].
  - unfold return_node, retrun_hook. now rewrite Hfree.
Qed.

Lemma run_node_lifecycle_witness :
  exists code' t4,
    fst (pre_process (manager Secrets.Scenario.store) Runner.Scenario.task)
    = Ok (mkNode "node1" "runner-1" code' QUEUED ∅ [] None)
    /\ return_node "runner-1" ["node2"] ∅ "ok" "DONE"
         (post_logs "runner-1" ["one"; "two"]
            (<["runner-1" := set_status RUNNING Runner.Scenario.task]> ∅))
       = (201, t4)
    /\ run_node_wait "runner-1" t4
       = Returned (mkNode "node1" "runner-1" code' DONE ∅ ["one"; "two"]
                     (Some Runner.Scenario.result)) ∅
    /\ return_node "runner-1" ["node2"] ∅ "ok" "DONE" ∅ = (500, ∅).
Proof.
  apply (run_node_lifecycle (manager Secrets.Scenario.store) Runner.Scenario.with_npu 0
           "node1" (code_base64 Runner.Scenario.task) ∅ "runner-1" ∅
           Runner.Scenario.npu1 (<["runner-1" := Runner.Scenario.task]> ∅)
           (<["runner-1" := set_status RUNNING Runner.Scenario.task]> ∅)
           ["one"; "two"] ["node2"] ∅ "ok" DONE).
  - reflexivity.
  - vm_compute. reflexivity.
  - vm_compute. reflexivity.
  - now left.
Defined.

(** An answer that comes in after the task was entered in the table but
    before the dispatch request has returned is recorded and then
    overwritten: the status goes back to [RUNNING] and the wait goes on,
    although the outputs of the answer are in the record. *)
Theorem early_result_is_overwritten rid node nodes outs message st t :
  t !! rid = Some node ->
  st = DONE \/ st = ERROR ->
  exists t1 t2,
    return_node rid nodes outs message (NodeStatus_value st) t = (201, t1)
    /\ run_node_dispatched rid t1 = Some t2
    /\ t2 !! rid
       = Some (set_status RUNNING
                 (set_outputs (mkTaskOutputs nodes outs (NodeStatus_value st) message) node))
    /\ run_node_wait rid t2 = Waiting.
Proof.
  intros H Hst. do 2 eexists. split; [|split; [|split]].
  - unfold return_node. now rewrite (retrun_hook_known _ _ _ _ st _ _ H Hst).
  - unfold run_node_dispatched. now rewrite lookup_insert_eq.
  - now rewrite lookup_insert_eq.
  - unfold run_node_wait. now rewrite lookup_insert_eq.
Qed.


Lemma early_result_is_overwritten_witness :
  exists t1 t2,
    return_node "runner-1" ["node2"] ∅ "ok" "DONE" (<["runner-1" := Runner.Scenario.task]> ∅)
    = (201, t1)
    /\ run_node_dispatched "runner-1" t1 = Some t2
    /\ t2 !! "runner-1"
       = Some (set_status RUNNING (set_outputs Runner.Scenario.result Runner.Scenario.task))
    /\ run_node_wait "runner-1" t2 = Waiting.
Proof.
  apply (early_result_is_overwritten "runner-1" Runner.Scenario.task ["node2"] ∅ "ok" DONE
           (<["runner-1" := Runner.Scenario.task]> ∅)).
  - reflexivity.
  - now left.
Defined.

End RunnerFacts.
